(** * supabase-image-cdn: the transformation request pipeline

    A shallow embedding of the edge function's pure core
    ([utils/params.ts], [utils/cache-key.ts], [utils/image.ts],
    [utils/security.ts], [utils/response.ts]) and of the request handler
    ([index.ts]), with the properties of the pipeline proved over it.

    Conventions of the embedding.
    - A JavaScript string is a [string]: a sequence of 8-bit code units
      (ASCII / Latin-1).  Every literal the code compares against is ASCII.
    - An integer-valued JavaScript number is the [Z] it denotes, [2^1024]
      and [-2^1024] standing for the infinities; [null] is [None].  The
      result of [parseInt] is [option Z], [None] standing for [NaN], and
      the integer read is rounded to the nearest number ([toNumber]), as
      the engine does beyond 2^53.
    - A function that may [throw new Error(msg)] returns a [result]; the
      message is the one the code builds.
    - Non-integer arithmetic (the aspect ratios of the geometry) goes
      through the interface [JsNumber], instantiated with IEEE-754 binary64
      and with exact rationals. *)

From Stdlib Require Import ZArith Bool List String Ascii Lia.
From Stdlib.Strings Require Import Byte.
From Stdlib Require Import Decimal DecimalString DecimalZ.
From Stdlib Require Import QArith Qround Lqa.
From Stdlib Require PrimFloat FloatOps SpecFloat Uint63.
Import ListNotations.

Local Open Scope string_scope.
Local Open Scope Z_scope.

(* ================================================================== *)
(** * Strings as the code uses them *)
(* ================================================================== *)

Module Str.

(** [String.prototype.startsWith]. *)
Fixpoint startsWith (s p : string) {struct p} : bool :=
  match p, s with
  | EmptyString, _ => true
  | String _ _, EmptyString => false
  | String a p', String b s' => Ascii.eqb a b && startsWith s' p'
  end.

(** [String.prototype.includes]: [sub] occurs somewhere in [s]. *)
Fixpoint includes (s sub : string) : bool :=
  startsWith s sub
  || match s with
     | EmptyString => false
     | String _ s' => includes s' sub
     end.

Fixpoint dropWhile (f : ascii -> bool) (s : string) : string :=
  match s with
  | EmptyString => EmptyString
  | String c s' => if f c then dropWhile f s' else s
  end.

Fixpoint dropWhileEnd (f : ascii -> bool) (s : string) : string :=
  match s with
  | EmptyString => EmptyString
  | String c s' =>
      match dropWhileEnd f s' with
      | EmptyString => if f c then EmptyString else String c EmptyString
      | r => String c r
      end
  end.

(** The characters [trim] and [parseInt] skip (WhiteSpace and
    LineTerminator), among the 8-bit code units: TAB, LF, VT, FF, CR,
    SPACE and NBSP. *)
Definition isWhiteSpace (c : ascii) : bool :=
  let n := N_of_ascii c in
  ((9 <=? n) && (n <=? 13) || (n =? 32) || (n =? 160))%N.

Definition trimStart (s : string) : string := dropWhile isWhiteSpace s.
Definition trimEnd (s : string) : string := dropWhileEnd isWhiteSpace s.

(** [String.prototype.trim]. *)
Definition trim (s : string) : string := trimEnd (trimStart s).

Definition isDigit (c : ascii) : bool :=
  let n := N_of_ascii c in ((48 <=? n) && (n <=? 57))%N.

Definition isUpper (c : ascii) : bool :=
  let n := N_of_ascii c in ((65 <=? n) && (n <=? 90))%N.

Definition isHexDigit (c : ascii) : bool :=
  let n := N_of_ascii c in
  (isDigit c || (65 <=? n) && (n <=? 70) || (97 <=? n) && (n <=? 102))%N.

Definition lowerChar (c : ascii) : ascii :=
  if isUpper c then ascii_of_N (N_of_ascii c + 32) else c.

(** [String.prototype.toLowerCase] on the ASCII letters (no other
    character lower-cases to a letter of [jpg], [jpeg] or [png]). *)
Fixpoint toLowerCase (s : string) : string :=
  match s with
  | EmptyString => EmptyString
  | String c s' => String (lowerChar c) (toLowerCase s')
  end.

Fixpoint forallb (f : ascii -> bool) (s : string) : bool :=
  match s with
  | EmptyString => true
  | String c s' => f c && forallb f s'
  end.

(** [String.prototype.split] on a one-character separator: the pieces
    between the separators, never the empty list. *)
Fixpoint split (sep : ascii) (s : string) : list string :=
  match s with
  | EmptyString => [EmptyString]
  | String c s' =>
      if Ascii.eqb c sep then EmptyString :: split sep s'
      else match split sep s' with
           | h :: t => String c h :: t
           | [] => [String c EmptyString]
           end
  end.

(** [Array.prototype.join]. *)
Fixpoint join (sep : string) (parts : list string) : string :=
  match parts with
  | [] => EmptyString
  | [p] => p
  | p :: rest => p ++ sep ++ join sep rest
  end.

(** Truthiness of a [string | null]: [null] and the empty string are
    falsy. *)
Definition truthy (v : option string) : bool :=
  match v with
  | None | Some EmptyString => false
  | Some _ => true
  end.

End Str.

(* ================================================================== *)
(** * Integer-valued numbers *)
(* ================================================================== *)

(** A number of the program that holds an integer is the integer it
    denotes.  Not every integer is a number: [toNumber z] is the number
    nearest to [z] (53 significant bits, round to nearest, a tie going to
    the even significand), and the integers [2^1024] and [-2^1024] stand
    for [Infinity] and [-Infinity], which compare with every number as
    the infinities do.  Integers up to [2^53] in magnitude are numbers. *)
Definition toNumber (z : Z) : Z :=
  let a := Z.abs z in
  if a <=? 9007199254740992 then z
  else
    let e := Z.log2 a - 52 in
    let q := a / 2 ^ e in
    let r := a mod 2 ^ e in
    let half := 2 ^ (e - 1) in
    let q' :=
      if r <? half then q
      else if half <? r then q + 1
      else if Z.even q then q else q + 1 in
    Z.sgn z * Z.min (q' * 2 ^ e) (2 ^ 1024).

(** The decimal digits of an integer. *)
Definition decimal (z : Z) : string := NilZero.string_of_int (Z.to_int z).

(** The integer of fewest significant digits whose number is [x], the
    nearest to [x] when two have as few digits; [n] is the number of
    digits of [x] and [k] the number of significant digits tried. *)
Fixpoint shortest (fuel : nat) (n k x : Z) : Z :=
  match fuel with
  | O => x
  | S fuel' =>
      let p := 10 ^ (n - k) in
      let lo := x / p * p in
      let hi := lo + p in
      match toNumber lo =? x, toNumber hi =? x with
      | true, true =>
          if x - lo <? hi - x then lo
          else if hi - x <? x - lo then hi
          else if Z.even (x / p) then lo else hi
      | true, false => lo
      | false, true => hi
      | false, false => shortest fuel' n (k + 1) x
      end
  end.

(** Exponent notation: the significant digits of [v], a point after the
    first when there are more, and the decimal exponent. *)
Definition exponential (v : Z) : string :=
  let ds := decimal v in
  let e := Z.of_nat (String.length ds) - 1 in
  match Str.dropWhileEnd (fun c => Ascii.eqb c "0") ds with
  | String d EmptyString => String d ("e+" ++ decimal e)
  | String d rest => String d ("." ++ rest ++ "e+" ++ decimal e)
  | EmptyString => ds
  end.

(** Template-literal / [String(n)] rendering of an integer-valued
    number: its decimal digits up to [2^53]; beyond, the fewest digits
    that read back as the number, followed by zeros below [10^21] and in
    exponent notation from [10^21] on. *)
Definition Number_toString (z : Z) : string :=
  let x := toNumber z in
  let a := Z.abs x in
  if a <=? 9007199254740992 then decimal x
  else if 2 ^ 1024 <=? a then (if x <? 0 then "-Infinity" else "Infinity")
  else
    let n := Z.of_nat (String.length (decimal a)) in
    let v := shortest (Z.to_nat n) n 1 a in
    (if x <? 0 then "-" else "")
    ++ (if v <? 10 ^ 21 then decimal v else exponential v).

(** Truthiness of a [number | null]: [null] and [0] are falsy. *)
Definition truthyNum (v : option Z) : bool :=
  match v with
  | None => false
  | Some z => negb (z =? 0)
  end.

(* ================================================================== *)
(** * Thrown errors *)
(* ================================================================== *)

Inductive result (A : Type) : Type :=
| Ok (a : A)
| Throw (message : string).
Arguments Ok {A} a.
Arguments Throw {A} message.

Definition bind {A B : Type} (r : result A) (k : A -> result B) : result B :=
  match r with
  | Ok a => k a
  | Throw m => Throw m
  end.

Notation "'let*' x ':=' r 'in' k" := (bind r (fun x => k))
  (at level 10, x name, r at level 100, k at level 200).

(* ================================================================== *)
(** * utils/params.ts *)
(* ================================================================== *)

Inductive FitMode : Type := cover | contain | fill.
Inductive ImageFormat : Type := jpeg | png.
Inductive CropPosition : Type :=
  center | top | bottom | left | right.

Record TransformConfig : Type := mkConfig {
  bucket : string;
  path : string;
  width : option Z;
  height : option Z;
  fit : FitMode;
  format : option ImageFormat;
  quality : Z;
  background : option string;
  crop : CropPosition;
  noCache : bool
}.

Record ValidationLimits : Type := mkLimits {
  maxWidth : Z;
  maxHeight : Z;
  defaultQuality : Z;
  defaultBucket : string
}.

Definition FitMode_toString (f : FitMode) : string :=
  match f with cover => "cover" | contain => "contain" | fill => "fill" end.

Definition ImageFormat_toString (f : ImageFormat) : string :=
  match f with jpeg => "jpeg" | png => "png" end.

Definition CropPosition_toString (c : CropPosition) : string :=
  match c with
  | center => "center" | top => "top" | bottom => "bottom"
  | left => "left" | right => "right"
  end.

Definition isSlash (c : ascii) : bool := Ascii.eqb c "/".

(** [s.replace(/^\/+|\/+$/g, "")]: the leading and the trailing run of
    slashes are removed. *)
Definition stripSlashes (s : string) : string :=
  Str.dropWhileEnd isSlash (Str.dropWhile isSlash s).

Definition sanitizePath (path : string) : result string :=
  let sanitized := stripSlashes (Str.trim path) in
  if Str.includes sanitized ".." || Str.startsWith sanitized "/" then
    Throw "Invalid path: path traversal detected"
  else if negb (Str.truthy (Some sanitized)) then
    Throw "Invalid path: path cannot be empty"
  else
    Ok sanitized.

(** ** [parseInt(value, 10)] *)

Definition digitValue (c : ascii) : Z := Z.of_N (N_of_ascii c) - 48.

(** The value of the longest prefix of decimal digits of [s], read after
    the digits already accumulated in [acc]. *)
Fixpoint parseDigits (acc : Z) (s : string) : Z :=
  match s with
  | EmptyString => acc
  | String c s' =>
      if Str.isDigit c then parseDigits (10 * acc + digitValue c) s' else acc
  end.

Definition startsWithDigit (s : string) : bool :=
  match s with
  | EmptyString => false
  | String c _ => Str.isDigit c
  end.

(** [parseInt(s, 10)]: leading white space is skipped, one sign is read,
    then the longest run of digits; what follows the digits is ignored.
    The result is the number nearest to the integer read; [None] is
    [NaN] (no digit where one is expected). *)
Definition parseInt (s : string) : option Z :=
  let s1 := Str.trimStart s in
  let '(sign, s2) :=
    match s1 with
    | String c r =>
        if Ascii.eqb c "-" then (-1, r)
        else if Ascii.eqb c "+" then (1, r)
        else (1, s1)
    | EmptyString => (1, s1)
    end in
  if startsWithDigit s2 then Some (toNumber (sign * parseDigits 0 s2))
  else None.

Definition parseIntParam (value : option string) (min max : Z)
  : result (option Z) :=
  match value with
  | None | Some EmptyString => Ok None
  | Some v =>
      match parseInt v with
      | None => Throw ("Invalid number: " ++ v)
      | Some parsed =>
          if (parsed <? min) || (parsed >? max) then
            Throw ("Number out of range: " ++ v ++ " (min: "
                   ++ Number_toString min ++ ", max: "
                   ++ Number_toString max ++ ")")
          else Ok (Some parsed)
      end
  end.

Definition parseFitMode (value : option string) : result FitMode :=
  match value with
  | None | Some EmptyString => Ok cover
  | Some v =>
      if String.eqb v "cover" then Ok cover
      else if String.eqb v "contain" then Ok contain
      else if String.eqb v "fill" then Ok fill
      else Throw ("Invalid fit mode: " ++ v ++ ". Allowed values: "
                  ++ Str.join ", " ["cover"; "contain"; "fill"])
  end.

Definition parseFormat (value : option string) : result (option ImageFormat) :=
  match value with
  | None | Some EmptyString => Ok None
  | Some v =>
      if String.eqb v "jpeg" then Ok (Some jpeg)
      else if String.eqb v "png" then Ok (Some png)
      else Throw ("Invalid format: " ++ v ++ ". Allowed values: "
                  ++ Str.join ", " ["jpeg"; "png"])
  end.

Definition parseCropPosition (value : option string) : result CropPosition :=
  match value with
  | None | Some EmptyString => Ok center
  | Some v =>
      if String.eqb v "center" then Ok center
      else if String.eqb v "top" then Ok top
      else if String.eqb v "bottom" then Ok bottom
      else if String.eqb v "left" then Ok left
      else if String.eqb v "right" then Ok right
      else Throw ("Invalid crop position: " ++ v ++ ". Allowed values: "
                  ++ Str.join ", " ["center"; "top"; "bottom"; "left"; "right"])
  end.

(** [/^[0-9A-Fa-f]{6}$/.test(value)]. *)
Definition isHexColor (v : string) : bool :=
  (Nat.eqb (String.length v) 6) && Str.forallb Str.isHexDigit v.

Definition parseBackground (value : option string) : result (option string) :=
  match value with
  | None | Some EmptyString => Ok None
  | Some v =>
      if isHexColor v then Ok (Some v)
      else Throw ("Invalid background color: " ++ v
                  ++ ". Expected 6-digit hex (e.g., ffffff)")
  end.

(** [URLSearchParams]: the pairs in the order received; [get] is the first
    value under the name, [delete] removes every pair under it. *)
Definition URLSearchParams : Type := list (string * string).

Fixpoint get (name : string) (ps : URLSearchParams) : option string :=
  match ps with
  | [] => None
  | (k, v) :: rest => if String.eqb k name then Some v else get name rest
  end.

Definition delete (name : string) (ps : URLSearchParams) : URLSearchParams :=
  filter (fun kv => negb (String.eqb (fst kv) name)) ps.

(** [a || b] on a [string | null]. *)
Definition orString (a : option string) (b : string) : string :=
  match a with
  | None | Some EmptyString => b
  | Some v => v
  end.

(** [a || b] on a [number | null]. *)
Definition orNumber (a : option Z) (b : Z) : Z :=
  match a with
  | None => b
  | Some z => if z =? 0 then b else z
  end.

Definition parseQueryParams (searchParams : URLSearchParams)
    (limits : ValidationLimits) : result TransformConfig :=
  let bucket := orString (get "bucket" searchParams) limits.(defaultBucket) in
  let rawPath := get "path" searchParams in
  match rawPath with
  | None | Some EmptyString => Throw "Missing required parameter: path"
  | Some rawPath =>
      let* path := sanitizePath rawPath in
      let* width := parseIntParam (get "w" searchParams) 1 limits.(maxWidth) in
      let* height := parseIntParam (get "h" searchParams) 1 limits.(maxHeight) in
      let* fit := parseFitMode (get "fit" searchParams) in
      let* format := parseFormat (get "format" searchParams) in
      let* q := parseIntParam (get "q" searchParams) 1 100 in
      let quality := orNumber q limits.(defaultQuality) in
      let* background := parseBackground (get "bg" searchParams) in
      let* crop := parseCropPosition (get "crop" searchParams) in
      let noCache :=
        match get "no_cache" searchParams with
        | Some v => String.eqb v "1"
        | None => false
        end in
      Ok (mkConfig bucket path width height fit format quality
                   background crop noCache)
  end.

(* ================================================================== *)
(** * utils/cache-key.ts *)
(* ================================================================== *)

Definition FitMode_eqb (a b : FitMode) : bool :=
  match a, b with
  | cover, cover | contain, contain | fill, fill => true
  | _, _ => false
  end.

Definition ImageFormat_eqb (a b : ImageFormat) : bool :=
  match a, b with
  | jpeg, jpeg | png, png => true
  | _, _ => false
  end.

Definition CropPosition_eqb (a b : CropPosition) : bool :=
  match a, b with
  | center, center | top, top | bottom, bottom
  | left, left | right, right => true
  | _, _ => false
  end.

Definition getExtensionFromFormat (format : ImageFormat) : string :=
  match format with jpeg => "jpg" | png => "png" end.

Definition getMimeType (format : ImageFormat) : string :=
  match format with jpeg => "image/jpeg" | png => "image/png" end.

(** [path.split(".").pop()?.toLowerCase()], then the [switch]. *)
Definition inferFormatFromPath (path : string) : ImageFormat :=
  let ext := Str.toLowerCase (last (Str.split "." path) EmptyString) in
  if String.eqb ext "jpg" then jpeg
  else if String.eqb ext "jpeg" then jpeg
  else if String.eqb ext "png" then png
  else jpeg.

Definition isDot (c : ascii) : bool := Ascii.eqb c ".".

(** [path.replace(/\.[^.]+$/, "")]: the expression matches at the first
    dot that is followed, up to the end, by one or more characters none
    of which is a dot; the path is cut there. *)
Fixpoint stripExtension (path : string) : string :=
  match path with
  | EmptyString => EmptyString
  | String c rest =>
      if isDot c && negb (String.eqb rest "")
         && Str.forallb (fun d => negb (isDot d)) rest
      then EmptyString
      else String c (stripExtension rest)
  end.

(** The text a template literal gives a [number | null]. *)
Definition optNumber_toString (v : option Z) : string :=
  match v with
  | Some z => Number_toString z
  | None => "null"
  end.

(** The text a template literal gives a [string | null]. *)
Definition optString_toString (v : option string) : string :=
  match v with
  | Some s => s
  | None => "null"
  end.

(** [config.format || originalFormat]. *)
Definition orFormat (a : option ImageFormat) (b : ImageFormat) : ImageFormat :=
  match a with
  | Some f => f
  | None => b
  end.

(** The array [parts] as [buildCacheKey] has pushed it. *)
Definition cacheKeyParts (config : TransformConfig) : list string :=
  let originalFormat := inferFormatFromPath config.(path) in
  let pathWithoutExt := stripExtension config.(path) in
  [pathWithoutExt]
  ++ (if truthyNum config.(width)
      then ["w=" ++ optNumber_toString config.(width)] else [])
  ++ (if truthyNum config.(height)
      then ["h=" ++ optNumber_toString config.(height)] else [])
  ++ (if negb (FitMode_eqb config.(fit) cover)
         && (truthyNum config.(width) || truthyNum config.(height))
      then ["fit=" ++ FitMode_toString config.(fit)] else [])
  ++ (match config.(format) with
      | Some f =>
          if negb (ImageFormat_eqb f originalFormat)
          then ["fmt=" ++ ImageFormat_toString f] else []
      | None => []
      end)
  ++ (if negb (config.(quality) =? 80)
      then ["q=" ++ Number_toString config.(quality)] else [])
  ++ (if Str.truthy config.(background)
      then ["bg=" ++ optString_toString config.(background)] else [])
  ++ (if negb (CropPosition_eqb config.(crop) center)
         && (truthyNum config.(width) || truthyNum config.(height))
      then ["crop=" ++ CropPosition_toString config.(crop)] else []).

Definition buildCacheKey (config : TransformConfig) : string :=
  let originalFormat := inferFormatFromPath config.(path) in
  let outputFormat := orFormat config.(format) originalFormat in
  let cacheKey := Str.join "__" (cacheKeyParts config) in
  let ext := getExtensionFromFormat outputFormat in
  cacheKey ++ "." ++ ext.

(* ================================================================== *)
(** * JavaScript numbers that are not integers *)
(* ================================================================== *)

(** The arithmetic [calculateDimensions] and [applyCrop] perform on
    numbers: the operations, which numbers are finite, and the rational
    a finite number denotes. *)
Class JsNumber (num : Type) : Type := {
  ofZ : Z -> num;
  div : num -> num -> num;
  mul : num -> num -> num;
  gt : num -> num -> bool;
  isFinite : num -> bool;
  value : num -> Q
}.

(** [Math.round]: the nearest integer, a tie going up. *)
Definition Math_round {num : Type} `{JsNumber num} (x : num) : Z :=
  Qfloor (value x + (1 # 2)).

(** ** IEEE-754 binary64, the numbers of the engine *)

(** An integer below 2^63 in magnitude as a binary64 number. *)
Definition Z_to_float (z : Z) : PrimFloat.float :=
  match z with
  | Z0 => PrimFloat.of_uint63 (Uint63.of_Z 0)
  | Zpos _ => PrimFloat.of_uint63 (Uint63.of_Z z)
  | Zneg p => PrimFloat.opp (PrimFloat.of_uint63 (Uint63.of_Z (Zpos p)))
  end.

Definition float_isFinite (x : PrimFloat.float) : bool :=
  match FloatOps.Prim2SF x with
  | SpecFloat.S754_finite _ _ _ | SpecFloat.S754_zero _ => true
  | _ => false
  end.

(** The rational a finite binary64 number denotes; an infinity or a NaN,
    which no computation on positive dimensions produces, is read as 0. *)
Definition float_value (x : PrimFloat.float) : Q :=
  match FloatOps.Prim2SF x with
  | SpecFloat.S754_finite s m e =>
      (inject_Z (if s then Zneg m else Zpos m) * Qpower 2 e)%Q
  | _ => 0%Q
  end.

#[export] Instance Binary64 : JsNumber PrimFloat.float := {
  ofZ := Z_to_float;
  div := PrimFloat.div;
  mul := PrimFloat.mul;
  gt := fun x y => PrimFloat.ltb y x;
  isFinite := float_isFinite;
  value := float_value
}.

(** ** Exact rational arithmetic *)

#[export] Instance Exact : JsNumber Q := {
  ofZ := inject_Z;
  div := Qdiv;
  mul := Qmult;
  gt := fun x y => negb (Qle_bool x y);
  isFinite := fun _ => true;
  value := fun q => q
}.

(** ** What the geometry relies on

    Integers up to 2^53 are represented exactly, a comparison of finite
    numbers compares their values, and a product or quotient of finite
    operands of moderate size is finite and carries a relative error of
    at most 2^-53.  Exact arithmetic obeys these laws; so does binary64,
    an operation on moderate operands (zero, or between 2^-64 and 2^64)
    neither overflowing nor underflowing.  [unitRoundoff] is 2^-53. *)

Definition unitRoundoff : Q := 1 # 9007199254740992.

Definition moderate (q : Q) : Prop :=
  (q == 0 \/ (1 # 18446744073709551616) <= q <= 18446744073709551616 # 1)%Q.

Class JsNumberLaws (num : Type) `{JsNumber num} : Prop := {
  ofZ_exact : forall z : Z,
    - 9007199254740992 <= z <= 9007199254740992 ->
    isFinite (ofZ z) = true /\ (value (ofZ z) == inject_Z z)%Q;
  gt_value : forall x y : num,
    isFinite x = true -> isFinite y = true ->
    (gt x y = true <-> (value y < value x)%Q);
  div_accurate : forall x y : num,
    isFinite x = true -> isFinite y = true ->
    moderate (value x) -> moderate (value y) -> (0 < value y)%Q ->
    isFinite (div x y) = true
    /\ ((1 - unitRoundoff) * value x <= value (div x y) * value y
        /\ value (div x y) * value y <= (1 + unitRoundoff) * value x)%Q;
  mul_accurate : forall x y : num,
    isFinite x = true -> isFinite y = true ->
    moderate (value x) -> moderate (value y) ->
    isFinite (mul x y) = true
    /\ ((1 - unitRoundoff) * (value x * value y) <= value (mul x y)
        /\ value (mul x y) <= (1 + unitRoundoff) * (value x * value y))%Q
}.

(** A dimension in pixels: an integer between 1 and 2^26. *)
Definition dimension (z : Z) : Prop := 1 <= z <= 67108864.

(* ================================================================== *)
(** * utils/image.ts *)
(* ================================================================== *)

Module Dimensions.
Record t : Type := mk {
  width : Z;
  height : Z;
  shouldCrop : bool
}.
End Dimensions.

(** The number under a [number | null] that the code has found truthy
    ([targetHeight!]); [null] in arithmetic is 0. *)
Definition numberOf (v : option Z) : Z :=
  match v with
  | Some z => z
  | None => 0
  end.

Section Geometry.
Context {num : Type} `{JsNumber num}.

Definition calculateDimensions (originalWidth originalHeight : Z)
    (targetWidth targetHeight : option Z) (fit : FitMode)
  : Dimensions.t :=
  if negb (truthyNum targetWidth) && negb (truthyNum targetHeight) then
    Dimensions.mk originalWidth originalHeight false
  else if negb (truthyNum targetWidth) then
    let ratio := div (ofZ originalWidth) (ofZ originalHeight) in
    Dimensions.mk (Math_round (mul (ofZ (numberOf targetHeight)) ratio))
                  (numberOf targetHeight) false
  else if negb (truthyNum targetHeight) then
    let ratio := div (ofZ originalHeight) (ofZ originalWidth) in
    Dimensions.mk (numberOf targetWidth)
                  (Math_round (mul (ofZ (numberOf targetWidth)) ratio))
                  false
  else
    let targetWidth := numberOf targetWidth in
    let targetHeight := numberOf targetHeight in
    let aspectRatio := div (ofZ originalWidth) (ofZ originalHeight) in
    let targetRatio := div (ofZ targetWidth) (ofZ targetHeight) in
    match fit with
    | fill => Dimensions.mk targetWidth targetHeight false
    | contain =>
        if gt aspectRatio targetRatio then
          Dimensions.mk targetWidth
                        (Math_round (div (ofZ targetWidth) aspectRatio))
                        false
        else
          Dimensions.mk (Math_round (mul (ofZ targetHeight) aspectRatio))
                        targetHeight false
    | cover =>
        if gt aspectRatio targetRatio then
          Dimensions.mk (Math_round (mul (ofZ targetHeight) aspectRatio))
                        targetHeight true
        else
          Dimensions.mk targetWidth
                        (Math_round (div (ofZ targetWidth) aspectRatio))
                        true
    end.

(** The [switch] of [applyCrop]: the offsets [x] and [y] of the crop in
    a raster of [width] by [height]. *)
Definition cropOffsets (width height targetWidth targetHeight : Z)
    (position : CropPosition) : Z * Z :=
  let half (d : Z) := Math_round (div (ofZ d) (ofZ 2)) in
  match position with
  | center => (half (width - targetWidth), half (height - targetHeight))
  | top => (half (width - targetWidth), 0)
  | bottom => (half (width - targetWidth), height - targetHeight)
  | left => (0, half (height - targetHeight))
  | right => (width - targetWidth, half (height - targetHeight))
  end.
End Geometry.

(** The codec (ImageScript): rasters and the operations on them.  The
    operations that build a raster of given dimensions, [resize], [crop]
    and [new Image], may throw, as decoding and encoding may: the library
    refuses a raster with a dimension below 1. *)
Class Codec (Image : Type) : Type := {
  decode : list byte -> result Image;
  imageWidth : Image -> Z;
  imageHeight : Image -> Z;
  resize : Image -> Z -> Z -> result Image;
  crop_ : Image -> Z -> Z -> Z -> Z -> result Image;
  newImage : Z -> Z -> result Image;
  fill_ : Image -> option Z -> Image;
  composite : Image -> Image -> Image;
  encodeJPEG : Image -> Z -> result (list byte);
  encodePNG : Image -> result (list byte)
}.

Section Transform.
Context {num : Type} `{JsNumber num} {Image : Type} `{Codec Image}.

Definition decodeImage (imageData : list byte) : result Image :=
  match decode imageData with
  | Ok image => Ok image
  | Throw message => Throw ("Failed to decode image: " ++ message)
  end.

Definition applyCrop (image : Image) (targetWidth targetHeight : Z)
    (position : CropPosition) : result Image :=
  let width := imageWidth image in
  let height := imageHeight image in
  if (width =? targetWidth) && (height =? targetHeight) then Ok image
  else
    let '(x, y) :=
      cropOffsets width height targetWidth targetHeight position in
    crop_ image x y targetWidth targetHeight.

Definition hexDigitValue (c : ascii) : Z :=
  let n := Z.of_N (N_of_ascii c) in
  if Str.isDigit c then n - 48
  else if n <? 97 then n - 55 else n - 87.

Fixpoint parseHexDigits (acc : Z) (s : string) : Z :=
  match s with
  | EmptyString => acc
  | String c s' =>
      if Str.isHexDigit c
      then parseHexDigits (16 * acc + hexDigitValue c) s'
      else acc
  end.

(** [parseInt(hex, 16)]: white space is skipped, one sign is read, a
    [0x] or [0X] prefix is dropped, then the longest run of hexadecimal
    digits is read.  [None] is [NaN]. *)
Definition parseHexColor (hex : string) : option Z :=
  let s1 := Str.trimStart hex in
  let '(sign, s2) :=
    match s1 with
    | String c r =>
        if Ascii.eqb c "-" then (-1, r)
        else if Ascii.eqb c "+" then (1, r)
        else (1, s1)
    | EmptyString => (1, s1)
    end in
  let s3 :=
    match s2 with
    | String c0 (String c1 r) =>
        if Ascii.eqb c0 "0" && (Ascii.eqb c1 "x" || Ascii.eqb c1 "X")
        then r else s2
    | _ => s2
    end in
  match s3 with
  | String c _ =>
      if Str.isHexDigit c then Some (toNumber (sign * parseHexDigits 0 s3))
      else None
  | EmptyString => None
  end.

Definition applyBackground (image : Image) (bgColor : option string)
  : result Image :=
  match bgColor with
  | None | Some EmptyString => Ok image
  | Some hex =>
      let color := parseHexColor hex in
      let* newImage := newImage (imageWidth image) (imageHeight image) in
      let newImage := fill_ newImage color in
      Ok (composite newImage image)
  end.

Definition encodeImage (image : Image) (format : ImageFormat) (quality : Z)
  : result (list byte) :=
  let encoded :=
    match format with
    | jpeg => encodeJPEG image quality
    | png => encodePNG image
    end in
  match encoded with
  | Ok data => Ok data
  | Throw message => Throw ("Failed to encode image: " ++ message)
  end.

Definition transformImage (imageData : list byte) (config : TransformConfig)
    (originalFormat : ImageFormat) : result (list byte * ImageFormat) :=
  let* image := decodeImage imageData in
  let d := calculateDimensions (imageWidth image) (imageHeight image)
             config.(width) config.(height) config.(fit) in
  let* image :=
    if negb (Dimensions.width d =? imageWidth image)
       || negb (Dimensions.height d =? imageHeight image)
    then resize image (Dimensions.width d) (Dimensions.height d)
    else Ok image in
  let* image :=
    if Dimensions.shouldCrop d && truthyNum config.(width)
       && truthyNum config.(height)
    then applyCrop image (numberOf config.(width))
                   (numberOf config.(height)) config.(crop)
    else Ok image in
  let* image :=
    if (FitMode_eqb config.(fit) contain || FitMode_eqb config.(fit) fill)
       && Str.truthy config.(background)
    then applyBackground image config.(background)
    else Ok image in
  let outputFormat := orFormat config.(format) originalFormat in
  let* encodedData := encodeImage image outputFormat config.(quality) in
  Ok (encodedData, outputFormat).
End Transform.

(* ================================================================== *)
(** * utils/response.ts *)
(* ================================================================== *)

(** A [Response]: the status, the headers set, and the body, either the
    bytes of an image (a [Uint8Array] and its buffer are the list of
    their bytes) or the object an error response serialises
    ([JSON.stringify(body, null, 2)] is left unevaluated). *)
Inductive Body : Type :=
| ImageBody (bytes : list byte)
| ErrorBody (error : string) (status : Z) (details : option string).

Record Response : Type := mkResponse {
  status : Z;
  headers : list (string * string);
  body : Body
}.

Record ImageResponseOptions : Type := mkOptions {
  maxAge : option Z;
  immutable : option bool
}.

(** The call [imageResponse(data, format)], without options. *)
Definition noOptions : ImageResponseOptions := mkOptions None None.

Definition imageResponse (imageData : list byte) (format : ImageFormat)
    (options : ImageResponseOptions) : Response :=
  let maxAge :=
    match options.(maxAge) with Some n => n | None => 31536000 end in
  let immutable :=
    match options.(immutable) with Some b => b | None => true end in
  let maxAgeDirective := "max-age=" ++ Number_toString maxAge in
  let cacheDirectives :=
    "public" :: maxAgeDirective
    :: (if immutable then ["immutable"] else []) in
  mkResponse 200
    [("Content-Type", getMimeType format);
     ("Cache-Control", Str.join ", " cacheDirectives)]
    (ImageBody imageData).

Definition errorResponse (message : string) (status : Z)
    (details : option string) : Response :=
  mkResponse status [("Content-Type", "application/json")]
             (ErrorBody message status details).

Module ErrorResponses.
Definition methodNotAllowed : Response :=
  errorResponse "Method not allowed. Only GET requests are supported."
                405 None.
Definition badRequest (message : string) : Response :=
  errorResponse message 400 None.
Definition notFound (resource : string) : Response :=
  errorResponse ("Resource not found: " ++ resource) 404 None.
Definition internalError (message : string) : Response :=
  errorResponse message 500 None.
Definition forbidden (message : string) : Response :=
  errorResponse message 403 None.
End ErrorResponses.

(* ================================================================== *)
(** * utils/security.ts *)
(* ================================================================== *)

(** What the platform provides: HMAC-SHA256 in lower-case hexadecimal
    ([crypto.subtle], keyed by the secret) and the serialisation of
    [URLSearchParams.prototype.toString]. *)
Class WebPlatform : Type := {
  hmacSha256Hex : string -> string -> string;
  URLSearchParams_toString : URLSearchParams -> string
}.

Section Security.
Context `{WebPlatform}.

Definition generateSignature (params secret : string) : string :=
  hmacSha256Hex secret params.

Definition verifySignature (searchParams : URLSearchParams)
    (secret : string) : bool :=
  match get "token" searchParams with
  | None | Some EmptyString => false
  | Some token =>
      let params := delete "token" searchParams in
      let paramsString := URLSearchParams_toString params in
      let expectedSignature := generateSignature paramsString secret in
      String.eqb token expectedSignature
  end.

(** Resolves ([Ok tt]) or rejects ([Throw]). *)
Definition checkSignature (searchParams : URLSearchParams)
    (signingSecret : option string) : result unit :=
  match signingSecret with
  | None | Some EmptyString => Ok tt
  | Some secret =>
      let isValid := verifySignature searchParams secret in
      if negb isValid then Throw "Invalid or missing signature"
      else Ok tt
  end.
End Security.

(* ================================================================== *)
(** * index.ts: the request handler *)
(* ================================================================== *)

(** ** Storage *)

(** What [download] resolves to: [{ data, error }]. *)
Record DownloadResult : Type := mkDownload {
  data : option (list byte);
  error : option string
}.

Record UploadOptions : Type := mkUpload {
  upsert : bool;
  contentType : string;
  cacheControl : string
}.

(** The storage client.  A call resolves ([Ok]) or rejects ([Throw]);
    [upload] resolves to its [error] field. *)
Class Storage : Type := {
  download : string -> string -> result DownloadResult;
  upload : string -> string -> list byte -> UploadOptions
           -> result (option string)
}.

(** ** Control flow of an [async] function that logs *)

(** A line written to the console.  An object passed after the label is
    left out, and so is the duration of the two "Request completed"
    lines, which is read off the clock. *)
Inductive LogLine : Type :=
| console_log (text : string)
| console_error (text : string).

(** How a piece of the handler ends: normally, by [return], or by a
    thrown error. *)
Inductive Completion (A : Type) : Type :=
| Normal (a : A)
| Return (response : Response)
| Thrown (message : string).
Arguments Normal {A} a.
Arguments Return {A} response.
Arguments Thrown {A} message.

Definition Handler (A : Type) : Type :=
  list LogLine -> Completion A * list LogLine.

Definition pure {A : Type} (a : A) : Handler A :=
  fun log => (Normal a, log).

Definition andThen {A B : Type} (m : Handler A) (k : A -> Handler B)
  : Handler B :=
  fun log =>
    match m log with
    | (Normal a, log') => k a log'
    | (Return r, log') => (Return r, log')
    | (Thrown e, log') => (Thrown e, log')
    end.

Notation "x <- m ;; k" := (andThen m (fun x => k))
  (at level 61, m at next level, right associativity).
Notation "m ;; k" := (andThen m (fun _ => k))
  (at level 61, right associativity).

Definition logLine (text : string) : Handler unit :=
  fun log => (Normal tt, (log ++ [console_log text])%list).

Definition logError (text : string) : Handler unit :=
  fun log => (Normal tt, (log ++ [console_error text])%list).

Definition returnWith {A : Type} (r : Response) : Handler A :=
  fun log => (Return r, log).

(** [await]: the value of a resolved promise, the error of a rejected
    one thrown. *)
Definition await {A : Type} (p : result A) : Handler A :=
  fun log =>
    match p with
    | Ok a => (Normal a, log)
    | Throw message => (Thrown message, log)
    end.

(** [try { body } catch (error) { handler }]. *)
Definition tryCatch {A : Type} (body : Handler A)
    (handler : string -> Handler A) : Handler A :=
  fun log =>
    match body log with
    | (Thrown message, log') => handler message log'
    | other => other
    end.

(** ** The handler *)

Record Request : Type := mkRequest {
  method : string;
  searchParams : URLSearchParams
}.

(** The environment variables read at start-up. *)
Record Environment : Type := mkEnvironment {
  CACHE_BUCKET : string;
  IMAGE_CDN_SIGNING_SECRET : option string;
  limits : ValidationLimits
}.

Section Serve.
Context `{WebPlatform} `{Storage} {Image : Type} `{Codec Image}.
Variable env : Environment.

(** The lookup in the cache bucket; [Return]s the cached image on a
    hit and completes normally otherwise. *)
Definition cacheLookup (config : TransformConfig) (cacheKey : string)
  : Handler unit :=
  if negb config.(noCache) then
    tryCatch
      (r <- await (download env.(CACHE_BUCKET) cacheKey) ;;
       match r.(error), r.(data) with
       | None, Some cachedBytes =>
           logLine "Cache HIT - returning cached image" ;;
           let outputFormat :=
             orFormat config.(format) (inferFormatFromPath config.(path)) in
           logLine "Request completed (cached)" ;;
           returnWith (imageResponse cachedBytes outputFormat noOptions)
       | _, _ => pure tt
       end)
      (fun _ => logLine "Cache MISS - will process image")
  else logLine "Cache bypassed (no_cache=1)".

(** The upload to the cache bucket; whatever happens is logged and the
    handler goes on. *)
Definition cacheWrite (cacheKey : string) (transformedData : list byte)
    (outputFormat : ImageFormat) : Handler unit :=
  tryCatch
    (logLine "Uploading to cache bucket..." ;;
     uploadError <-
       await (upload env.(CACHE_BUCKET) cacheKey transformedData
                (mkUpload true
                   ("image/" ++ ImageFormat_toString outputFormat)
                   "31536000")) ;;
     match uploadError with
     | Some e => logError ("Failed to upload to cache: " ++ e)
     | None => logLine "Successfully cached transformed image"
     end)
    (fun e => logError ("Cache upload error: " ++ e)).

Definition handleRequest (req : Request) : Handler Response :=
  tryCatch
    (if negb (String.eqb req.(method) "GET") then
       returnWith ErrorResponses.methodNotAllowed
     else
       let searchParams := req.(searchParams) in
       tryCatch
         (await (checkSignature searchParams
                   env.(IMAGE_CDN_SIGNING_SECRET)))
         (fun message =>
            logError ("Signature verification failed: " ++ message) ;;
            returnWith
              (ErrorResponses.forbidden "Invalid or missing signature")) ;;
       config <-
         tryCatch
           (await (parseQueryParams searchParams env.(limits)))
           (fun message =>
              logError ("Parameter validation failed: " ++ message) ;;
              returnWith (ErrorResponses.badRequest message)) ;;
       logLine "Processing request:" ;;
       let cacheKey := buildCacheKey config in
       logLine ("Cache key: " ++ cacheKey) ;;
       cacheLookup config cacheKey ;;
       logLine ("Downloading original image from bucket: "
                ++ config.(bucket)) ;;
       origin <- await (download config.(bucket) config.(path)) ;;
       match origin.(error), origin.(data) with
       | None, Some originBytes =>
           logLine "Downloaded" ;;
           logLine "Transforming image..." ;;
           let originalFormat := inferFormatFromPath config.(path) in
           transformed <-
             await (transformImage (num := PrimFloat.float)
                      originBytes config originalFormat) ;;
           let '(transformedData, outputFormat) := transformed in
           logLine "Transformation complete" ;;
           cacheWrite cacheKey transformedData outputFormat ;;
           logLine "Request completed (processed)" ;;
           returnWith (imageResponse transformedData outputFormat noOptions)
       | _, _ =>
           logError "Failed to download original image:" ;;
           returnWith
             (ErrorResponses.notFound
                (config.(bucket) ++ "/" ++ config.(path)))
       end)
    (fun message =>
       logError "Unhandled error:" ;;
       returnWith
         (ErrorResponses.internalError
            (orString (Some message) "An unexpected error occurred"))).

(** The response the function sends and the lines it has logged. *)
Definition serve (req : Request) : Response * list LogLine :=
  match handleRequest req [] with
  | (Normal r, log) | (Return r, log) => (r, log)
  | (Thrown message, log) =>
      (ErrorResponses.internalError message, log)
  end.
End Serve.

(** ** The specification's vocabulary for the validator *)

(** The specification's "[..] path-traversal segment": some segment of the
    path is exactly [..]. *)
Definition hasTraversalSegment (s : string) : bool :=
  existsb (String.eqb "..") (Str.split "/" s).

(** The specification's "base-10 integer": an optional sign followed by
    one or more decimal digits, and nothing else. *)
Definition isBase10Integer (s : string) : bool :=
  let body :=
    match s with
    | String c r =>
        if Ascii.eqb c "-" || Ascii.eqb c "+" then r else s
    | EmptyString => s
    end in
  startsWithDigit body && Str.forallb Str.isDigit body.

(** The query parameters that are optional and validated. *)
Definition optionalParams : list string :=
  ["w"; "h"; "q"; "fit"; "format"; "crop"; "bg"; "bucket"].

(** ** The specification's vocabulary for the cache key *)

(** A valid [TransformConfig], as the data model describes it: a non-empty
    bucket, a sanitized path, dimensions within the configured limits,
    a quality in [[1, 100]], a background of six hexadecimal digits. *)
Definition inRange (lo hi : Z) (v : option Z) : bool :=
  match v with
  | Some z => (lo <=? z) && (z <=? hi)
  | None => true
  end.

Definition validPath (p : string) : bool :=
  negb (Str.includes p "..") && negb (Str.startsWith p "/")
  && negb (String.eqb p "").

Definition validConfig (limits : ValidationLimits) (c : TransformConfig)
  : bool :=
  negb (String.eqb c.(bucket) "")
  && validPath c.(path)
  && inRange 1 limits.(maxWidth) c.(width)
  && inRange 1 limits.(maxHeight) c.(height)
  && inRange 1 100 (Some c.(quality))
  && match c.(background) with
     | Some b => isHexColor b
     | None => true
     end.

(** The resolved transform-relevant values of a configuration: width,
    height, fit, output format, quality, background, crop. *)
Record Resolved : Type := mkResolved {
  r_width : option Z;
  r_height : option Z;
  r_fit : FitMode;
  r_format : ImageFormat;
  r_quality : Z;
  r_background : option string;
  r_crop : CropPosition
}.

Definition outputFormat (c : TransformConfig) : ImageFormat :=
  orFormat c.(format) (inferFormatFromPath c.(path)).

Definition resolved (c : TransformConfig) : Resolved :=
  mkResolved c.(width) c.(height) c.(fit) (outputFormat c) c.(quality)
             c.(background) c.(crop).

(** At least one target dimension was specified. *)
Definition dimensioned (c : TransformConfig) : bool :=
  truthyNum c.(width) || truthyNum c.(height).

(** The resolved values the key distinguishes: [fit] and [crop] count
    only when a dimension was specified. *)
Definition keyed (c : TransformConfig) : Resolved :=
  mkResolved c.(width) c.(height)
             (if dimensioned c then c.(fit) else cover)
             (outputFormat c) c.(quality) c.(background)
             (if dimensioned c then c.(crop) else center).

(** Some component pushed after the path is a quality component. *)
Definition hasQualityComponent (c : TransformConfig) : bool :=
  existsb (fun part => Str.startsWith part "q=") (tl (cacheKeyParts c)).

(** Limits whose configured default quality is 75. *)
Definition limitsQuality75 : ValidationLimits := mkLimits 2000 2000 75 "images".

(** ** The cache key, component by component *)

(** The optional components of a key, each present or not, and the
    extension. *)
Record KeyFields : Type := mkKey {
  k_w : option Z;
  k_h : option Z;
  k_fit : option FitMode;
  k_fmt : option ImageFormat;
  k_q : option Z;
  k_bg : option string;
  k_crop : option CropPosition;
  k_ext : ImageFormat
}.

Definition keyFields (c : TransformConfig) : KeyFields :=
  mkKey (if truthyNum c.(width) then c.(width) else None)
        (if truthyNum c.(height) then c.(height) else None)
        (if negb (FitMode_eqb c.(fit) cover) && dimensioned c
         then Some c.(fit) else None)
        (match c.(format) with
         | Some f =>
             if negb (ImageFormat_eqb f (inferFormatFromPath c.(path)))
             then Some f else None
         | None => None
         end)
        (if negb (c.(quality) =? 80) then Some c.(quality) else None)
        (if Str.truthy c.(background) then c.(background) else None)
        (if negb (CropPosition_eqb c.(crop) center) && dimensioned c
         then Some c.(crop) else None)
        (outputFormat c).

Definition segment {A : Type} (tag : string) (enc : A -> string)
    (v : option A) (rest : string) : string :=
  match v with
  | Some a => "__" ++ tag ++ "=" ++ enc a ++ rest
  | None => rest
  end.

Definition tailExt (k : KeyFields) : string :=
  "." ++ getExtensionFromFormat k.(k_ext).
Definition tailCrop (k : KeyFields) : string :=
  segment "crop" CropPosition_toString k.(k_crop) (tailExt k).
Definition tailBg (k : KeyFields) : string :=
  segment "bg" (fun b => b) k.(k_bg) (tailCrop k).
Definition tailQ (k : KeyFields) : string :=
  segment "q" Number_toString k.(k_q) (tailBg k).
Definition tailFmt (k : KeyFields) : string :=
  segment "fmt" ImageFormat_toString k.(k_fmt) (tailQ k).
Definition tailFit (k : KeyFields) : string :=
  segment "fit" FitMode_toString k.(k_fit) (tailFmt k).
Definition tailH (k : KeyFields) : string :=
  segment "h" Number_toString k.(k_h) (tailFit k).
(** What follows the path in the key. *)
Definition keySuffix (k : KeyFields) : string :=
  segment "w" Number_toString k.(k_w) (tailH k).

(** What may follow a component: it begins neither with a digit nor with
    the tag of the component. *)
Definition follows (tag rest : string) : Prop :=
  Str.startsWith rest ("__" ++ tag ++ "=") = false
  /\ startsWithDigit rest = false.

(** An integer from 0 to 2^53: a number that is rendered by its decimal
    digits. *)
Definition safeNatural (z : Z) : Prop := 0 <= z <= 9007199254740992.

(** Limits on the dimensions that are at most 2^53. *)
Definition safeLimits (limits : ValidationLimits) : Prop :=
  limits.(maxWidth) <= 9007199254740992
  /\ limits.(maxHeight) <= 9007199254740992.

(** The components are well formed: numbers are safe naturals and a
    background has six characters. *)
Definition nonNegative (v : option Z) : Prop :=
  match v with Some z => safeNatural z | None => True end.
Definition sixChars (v : option string) : Prop :=
  match v with Some b => String.length b = 6%nat | None => True end.
Definition wellFormedKey (k : KeyFields) : Prop :=
  nonNegative k.(k_w) /\ nonNegative k.(k_h) /\ nonNegative k.(k_q)
  /\ sixChars k.(k_bg).

(** Two valid configurations of the same path that differ in [fit] only,
    neither with a dimension. *)
Definition coverNoDims : TransformConfig :=
  mkConfig "images" "a.png" None None cover None 80 (Some "ffffff") center false.
Definition containNoDims : TransformConfig :=
  mkConfig "images" "a.png" None None contain None 80 (Some "ffffff") center false.
Definition defaultLimits : ValidationLimits := mkLimits 2000 2000 80 "images".

(** ** Numbers and binary64 *)

(** The integer a binary64 number denotes, an infinity being [2^1024]
    in magnitude as for [toNumber]. *)
Definition numberOfFloat (f : SpecFloat.spec_float) : Z :=
  match f with
  | SpecFloat.S754_zero _ | SpecFloat.S754_nan => 0
  | SpecFloat.S754_infinity s => if s then - 2 ^ 1024 else 2 ^ 1024
  | SpecFloat.S754_finite s m e =>
      (if s then -1 else 1)
      * (if 0 <=? e then Zpos m * 2 ^ e else Zpos m / 2 ^ (- e))
  end.

(** Integers around the ends of the ranges of [toNumber]. *)
Definition awkwardIntegers : list Z :=
  [0; 1; -1; 9007199254740991; 9007199254740992; 9007199254740993;
   9007199254740994; 9007199254740995; -9007199254740995;
   2 ^ 60 + 128; 2 ^ 60 + 129; 2 ^ 60 + 384; 10 ^ 21; 10 ^ 23;
   123456789012345678901234567890; 2 ^ 1023; 2 ^ 1024 - 2 ^ 970 - 1;
   2 ^ 1024 - 2 ^ 970; 2 ^ 1024; 10 ^ 400; - 10 ^ 400].

(** ** The specification's vocabulary for the geometry *)

(** The cover property, decided on given dimensions: the resolved
    raster covers the target box, a crop is requested, and for each of
    the five positions the crop region lies within the raster. *)
Definition coverCropWithin {num : Type} `{JsNumber num} (ow oh tw th : Z)
  : bool :=
  let d := calculateDimensions ow oh (Some tw) (Some th) cover in
  (tw <=? Dimensions.width d) && (th <=? Dimensions.height d)
  && Dimensions.shouldCrop d
  && forallb
       (fun position =>
          let '(x, y) := cropOffsets (Dimensions.width d)
                           (Dimensions.height d) tw th position in
          (0 <=? x) && (0 <=? y)
          && (x + tw <=? Dimensions.width d)
          && (y + th <=? Dimensions.height d))
       [center; top; bottom; left; right].

Definition smallDimensions : list Z := map Z.of_nat (seq 1 10).

(** Natural and target dimensions at the ends of the range and with
    awkward ratios. *)
Definition awkwardDimensions : list (Z * Z * Z * Z) :=
  [(67108864, 1, 67108864, 67108864); (1, 67108864, 67108864, 67108864);
   (67108864, 67108863, 67108863, 67108864); (1, 3, 67108864, 1);
   (4999, 3331, 1999, 1333); (1000, 800, 400, 400); (3, 7, 2000, 1999);
   (65535, 65521, 2000, 2000); (1920, 1080, 1080, 1920)].

(** ** The specification's vocabulary for the handler *)

(** The lookup found the derivative: it resolved with data and without
    an error. *)
Definition cacheHit (r : result DownloadResult) : bool :=
  match r with
  | Ok (mkDownload (Some _) None) => true
  | _ => false
  end.

(** ** Test doubles

    A platform, a storage and a codec to run the handler on: the
    signature of a message is the secret followed by the message, the
    origin bucket holds one object, every upload is refused, and a raster
    is its pair of dimensions. *)
Definition fakePlatform : WebPlatform := {|
  hmacSha256Hex := fun secret message => secret ++ ":" ++ message;
  URLSearchParams_toString :=
    fun ps => Str.join "&" (map (fun kv => fst kv ++ "=" ++ snd kv) ps)
|}.

Definition failingCacheStorage : Storage := {|
  download := fun bucket path =>
    if String.eqb bucket "images" && String.eqb path "test.jpg"
    then Ok (mkDownload (Some [x01; x02; x03]) None)
    else Ok (mkDownload None (Some "Object not found"));
  upload := fun _ _ _ _ => Throw "storage unavailable"
|}.

Definition fakeCodec : Codec (Z * Z) := {|
  decode := fun _ => Ok (1000, 800);
  imageWidth := fst;
  imageHeight := snd;
  resize := fun _ w h =>
    if w <? 1 then Throw "Image has to be at least 1 pixel wide"
    else if h <? 1 then Throw "Image has to be at least 1 pixel high"
    else Ok (w, h);
  crop_ := fun image _ _ w h =>
    Ok (Z.min w (fst image), Z.min h (snd image));
  newImage := fun w h =>
    if w <? 1 then Throw "Image has to be at least 1 pixel wide"
    else if h <? 1 then Throw "Image has to be at least 1 pixel high"
    else Ok (w, h);
  fill_ := fun image _ => image;
  composite := fun under _ => under;
  encodeJPEG := fun image _ => Ok [x4a; x50];
  encodePNG := fun image => Ok [x50; x4e]
|}.

(** The same codec on a source of 2000 by 1. *)
Definition flatCodec : Codec (Z * Z) := {|
  decode := fun _ => Ok (2000, 1);
  imageWidth := fst;
  imageHeight := snd;
  resize := resize (Codec := fakeCodec);
  crop_ := crop_ (Codec := fakeCodec);
  newImage := newImage (Codec := fakeCodec);
  fill_ := fun image _ => image;
  composite := fun under _ => under;
  encodeJPEG := fun image _ => Ok [x4a; x50];
  encodePNG := fun image => Ok [x50; x4e]
|}.

(** The same codec on bytes that are not an image. *)
Definition brokenCodec : Codec (Z * Z) := {|
  decode := fun _ => Throw "bad magic";
  imageWidth := fst;
  imageHeight := snd;
  resize := resize (Codec := fakeCodec);
  crop_ := crop_ (Codec := fakeCodec);
  newImage := newImage (Codec := fakeCodec);
  fill_ := fun image _ => image;
  composite := fun under _ => under;
  encodeJPEG := fun image _ => Ok [x4a; x50];
  encodePNG := fun image => Ok [x50; x4e]
|}.

(** A codec whose rasters record whether they were laid over a
    background, and whose encoders write that record. *)
Definition layeredCodec : Codec (Z * Z * bool) := {|
  decode := fun _ => Ok (1000, 800, false);
  imageWidth := fun image => fst (fst image);
  imageHeight := fun image => snd (fst image);
  resize := fun image w h => Ok (w, h, snd image);
  crop_ := fun image _ _ w h => Ok (w, h, snd image);
  newImage := fun w h => Ok (w, h, false);
  fill_ := fun image _ => image;
  composite := fun under _ => (fst under, true);
  encodeJPEG := fun image _ => Ok [if snd image then x01 else x00];
  encodePNG := fun image => Ok [if snd image then x01 else x00]
|}.

Definition testEnvironment : Environment :=
  mkEnvironment "images-cache" None defaultLimits.

Definition testRequest : Request :=
  mkRequest "GET" [("path", "test.jpg"); ("w", "400")].

(** ** Vocabulary of the further properties *)

(** The value of a decimal numeral, digit by digit, after [acc]. *)
Fixpoint uintValue (acc : Z) (d : Decimal.uint) : Z :=
  match d with
  | Decimal.Nil => acc
  | Decimal.D0 d' => uintValue (10 * acc + 0) d'
  | Decimal.D1 d' => uintValue (10 * acc + 1) d'
  | Decimal.D2 d' => uintValue (10 * acc + 2) d'
  | Decimal.D3 d' => uintValue (10 * acc + 3) d'
  | Decimal.D4 d' => uintValue (10 * acc + 4) d'
  | Decimal.D5 d' => uintValue (10 * acc + 5) d'
  | Decimal.D6 d' => uintValue (10 * acc + 6) d'
  | Decimal.D7 d' => uintValue (10 * acc + 7) d'
  | Decimal.D8 d' => uintValue (10 * acc + 8) d'
  | Decimal.D9 d' => uintValue (10 * acc + 9) d'
  end.

(** No character of [s] is a dot. *)
Definition noDot (s : string) : bool :=
  Str.forallb (fun d => negb (isDot d)) s.

(** The configuration [c] with another path. *)
Definition withPath (c : TransformConfig) (p : string) : TransformConfig :=
  mkConfig c.(bucket) p c.(width) c.(height) c.(fit) c.(format) c.(quality)
           c.(background) c.(crop) c.(noCache).

(** The format a final extension stands for. *)
Definition formatOfExtension (e : string) : ImageFormat :=
  if String.eqb (Str.toLowerCase e) "png" then png else jpeg.

(** What the transform relies on from the codec.  For dimensions of at
    least 1, [resize] gives a raster of the dimensions asked for, so does
    a new raster, and [crop] gives a raster of the region's dimensions
    when the region lies within the raster; [resize] to a dimension of 0
    throws; [fill] and [composite] keep the dimensions of the raster
    they are called on. *)
Class CodecLaws (Image : Type) `{Codec Image} : Prop := {
  resize_dimensions : forall (i : Image) (w h : Z),
    1 <= w -> 1 <= h ->
    exists r, resize i w h = Ok r /\ imageWidth r = w /\ imageHeight r = h;
  resize_range : forall (i : Image) (w h : Z),
    0 <= w -> 0 <= h -> w = 0 \/ h = 0 ->
    exists e, resize i w h = Throw e;
  crop_dimensions : forall (i : Image) (x y w h : Z),
    1 <= w -> 1 <= h ->
    0 <= x -> 0 <= y -> x + w <= imageWidth i -> y + h <= imageHeight i ->
    exists r, crop_ i x y w h = Ok r /\ imageWidth r = w /\ imageHeight r = h;
  newImage_dimensions : forall w h : Z,
    1 <= w -> 1 <= h ->
    exists r, newImage w h = Ok r /\ imageWidth r = w /\ imageHeight r = h;
  fill_dimensions : forall (i : Image) (color : option Z),
    imageWidth (fill_ i color) = imageWidth i
    /\ imageHeight (fill_ i color) = imageHeight i;
  composite_dimensions : forall under over : Image,
    imageWidth (composite under over) = imageWidth under
    /\ imageHeight (composite under over) = imageHeight under
}.

(** What [transformImage] does once [raster] is ready: encode it in the
    output format and return the bytes with that format. *)
Definition encodeAs {Image : Type} `{Codec Image} (raster : Image)
    (config : TransformConfig) (originalFormat : ImageFormat)
  : result (list byte * ImageFormat) :=
  let outputFormat := orFormat config.(format) originalFormat in
  let* encodedData := encodeImage raster outputFormat config.(quality) in
  Ok (encodedData, outputFormat).

(** The lines the cache lookup logs when it does not find the
    derivative: the bypass, a rejected download, or nothing. *)
Definition lookupLines `{Storage} (env : Environment)
    (config : TransformConfig) : list LogLine :=
  if config.(noCache) then [console_log "Cache bypassed (no_cache=1)"]
  else
    match download env.(CACHE_BUCKET) (buildCacheKey config) with
    | Throw _ => [console_log "Cache MISS - will process image"]
    | Ok _ => []
    end.

(** The lookup does not find the derivative. *)
Definition cacheMiss `{Storage} (env : Environment) (config : TransformConfig)
  : Prop :=
  config.(noCache) = true
  \/ cacheHit (download env.(CACHE_BUCKET) (buildCacheKey config)) = false.

(** The status codes the function answers with. *)
Definition statusCodes : list Z := [200; 400; 403; 404; 405; 500].

Definition isImageBody (b : Body) : bool :=
  match b with
  | ImageBody _ => true
  | ErrorBody _ _ _ => false
  end.

(* ================================================================== *)
(** * Properties *)
(* ================================================================== *)

#[local] Arguments Ascii.eqb : simpl never.
#[local] Arguments String.eqb : simpl never.

(** ** Characters and strings *)

Lemma append_nil_r (s : string) : s ++ "" = s.
Proof. induction s as [|c s IH]; simpl; [reflexivity | now rewrite IH]. Qed.

Lemma append_assoc (a b c : string) : (a ++ b) ++ c = a ++ (b ++ c).
Proof. induction a as [|x a IH]; simpl; [reflexivity | now rewrite IH]. Qed.

Lemma append_inv_head (p a b : string) : p ++ a = p ++ b -> a = b.
Proof.
  induction p as [|x p IH]; simpl; [auto|].
  intros H. inversion H. auto.
Qed.

Lemma dropWhile_head f s c r : Str.dropWhile f s = String c r -> f c = false.
Proof.
  induction s as [|d s IH]; simpl; [discriminate|].
  destruct (f d) eqn:E; auto. intros H; inversion H; subst; auto.
Qed.

Lemma dropWhileEnd_head f s c r :
  Str.dropWhileEnd f s = String c r -> exists r', s = String c r'.
Proof.
  destruct s as [|d s]; simpl; [discriminate|].
  destruct (Str.dropWhileEnd f s); [destruct (f d)|]; intros H; inversion H; eauto.
Qed.

Lemma stripSlashes_not_absolute s : Str.startsWith (stripSlashes s) "/" = false.
Proof.
  unfold stripSlashes.
  destruct (Str.dropWhileEnd isSlash (Str.dropWhile isSlash s)) as [|c r] eqn:E; [reflexivity|].
  apply dropWhileEnd_head in E as [r' E]. apply dropWhile_head in E.
  unfold isSlash in E. simpl. rewrite Ascii.eqb_sym, E. reflexivity.
Qed.

Lemma split_nonempty sep s : Str.split sep s <> [].
Proof.
  destruct s as [|c s]; simpl; [discriminate|].
  destruct (Ascii.eqb c sep); [discriminate|].
  destruct (Str.split sep s); discriminate.
Qed.

Lemma split_head sep s c h t :
  Str.split sep s = String c h :: t -> exists s', s = String c s'.
Proof.
  destruct s as [|d s]; simpl; [discriminate|].
  destruct (Ascii.eqb d sep); [discriminate|].
  destruct (Str.split sep s); intros H; inversion H; eauto.
Qed.

Lemma traversal_segment_includes s :
  hasTraversalSegment s = true -> Str.includes s ".." = true.
Proof.
  unfold hasTraversalSegment.
  induction s as [|c s IH]; simpl; [discriminate|].
  destruct (Ascii.eqb c "/") eqn:Ec; simpl.
  - intros H. apply IH in H. rewrite H. apply orb_true_r.
  - destruct (Str.split "/" s) as [|h t] eqn:Es;
      [exfalso; eapply split_nonempty; eauto|].
    simpl in *. intros H. apply orb_true_iff in H as [H|H].
    + apply String.eqb_eq in H. inversion H; subst c h.
      apply split_head in Es as [s' ->]. reflexivity.
    + rewrite IH; [apply orb_true_r | rewrite H; apply orb_true_r].
Qed.

(** ** Path sanitising *)

(** C7 (amended).  [sanitizePath] rejects ["../../etc/passwd"] and [""],
    returns ["products/shoe.jpg"] unchanged, and turns ["/abs/path"] into
    ["abs/path"] (the leading slash is trimmed, not rejected).  In general,
    with [s] the input trimmed of white space and of surrounding slashes:
    [s] never starts with a slash; the path is rejected when [s] contains
    a [..] segment, indeed when it contains [..] anywhere, and when [s] is
    empty; otherwise [s] is returned. *)
Theorem sanitizePath_spec :
  sanitizePath "../../etc/passwd" = Throw "Invalid path: path traversal detected"
  /\ sanitizePath "" = Throw "Invalid path: path cannot be empty"
  /\ sanitizePath "products/shoe.jpg" = Ok "products/shoe.jpg"
  /\ sanitizePath "/abs/path" = Ok "abs/path"
  /\ forall p : string,
       let s := stripSlashes (Str.trim p) in
       Str.startsWith s "/" = false
       /\ (hasTraversalSegment s = true ->
           sanitizePath p = Throw "Invalid path: path traversal detected")
       /\ (Str.includes s ".." = true ->
           sanitizePath p = Throw "Invalid path: path traversal detected")
       /\ (s = "" -> sanitizePath p = Throw "Invalid path: path cannot be empty")
       /\ (Str.includes s ".." = false -> s <> "" -> sanitizePath p = Ok s).
Proof.
  split; [reflexivity|]. split; [reflexivity|].
  split; [reflexivity|]. split; [reflexivity|].
  intros p s. unfold sanitizePath. fold s.
  pose proof (stripSlashes_not_absolute (Str.trim p)) as A. fold s in A.
  split; [exact A|]. rewrite A.
  split; [intros H; apply traversal_segment_includes in H; rewrite H; reflexivity|].
  split; [intros H; rewrite H; reflexivity|].
  split; [intros H; rewrite H; reflexivity|].
  intros H N. rewrite H. simpl. destruct s; [congruence | reflexivity].
Qed.

Lemma sanitizePath_spec_witness :
  sanitizePath "/a/../b" = Throw "Invalid path: path traversal detected"
  /\ sanitizePath " //img/cat.png/ " = Ok "img/cat.png".
Proof.
  destruct sanitizePath_spec as (_ & _ & _ & _ & G). split.
  - destruct (G "/a/../b") as (_ & T & _). apply T. reflexivity.
  - destruct (G " //img/cat.png/ ") as (_ & _ & _ & _ & A).
    apply A; [reflexivity | discriminate].
Defined.

(** C7 as stated fails: ["/abs/path"] is accepted. *)
Lemma sanitizePath_accepts_abs_path :
  sanitizePath "/abs/path" = Ok "abs/path"
  /\ ~ (exists m, sanitizePath "/abs/path" = Throw m).
Proof.
  split; [reflexivity | intros [m H]; discriminate H].
Qed.

(** ** Integer parameters *)

Lemma isDigit_not_space c : Str.isDigit c = true -> Str.isWhiteSpace c = false.
Proof.
  destruct c as [[] [] [] [] [] [] [] []]; vm_compute; congruence.
Qed.

Lemma isDigit_not_sign c :
  Str.isDigit c = true -> Ascii.eqb c "-" = false /\ Ascii.eqb c "+" = false.
Proof.
  destruct c as [[] [] [] [] [] [] [] []]; vm_compute; intuition congruence.
Qed.

Lemma parseDigits_app body rest acc :
  Str.forallb Str.isDigit body = true ->
  startsWithDigit rest = false ->
  parseDigits acc (body ++ rest) = parseDigits acc body.
Proof.
  revert acc. induction body as [|c body IH]; simpl; intros acc Hb Hr.
  - destruct rest as [|d rest]; [reflexivity|]. simpl in *. now rewrite Hr.
  - apply andb_true_iff in Hb as [Hc Hb]. rewrite Hc. now apply IH.
Qed.

Lemma startsWithDigit_app body rest :
  startsWithDigit body = true -> startsWithDigit (body ++ rest) = true.
Proof. destruct body; simpl; [discriminate | auto]. Qed.

Lemma trimStart_digit body :
  startsWithDigit body = true -> Str.trimStart body = body.
Proof.
  destruct body as [|c body]; simpl; [discriminate|]. intros H.
  unfold Str.trimStart. simpl. now rewrite (isDigit_not_space _ H).
Qed.

(** The digits of an unsigned literal are read in full, and what follows
    them is ignored. *)
Lemma parseInt_unsigned body rest :
  startsWithDigit body = true -> Str.forallb Str.isDigit body = true ->
  startsWithDigit rest = false ->
  parseInt (body ++ rest) = Some (toNumber (parseDigits 0 body)).
Proof.
  intros Hs Hb Hr. unfold parseInt.
  rewrite trimStart_digit by now apply startsWithDigit_app.
  destruct body as [|c body]; [discriminate|]. simpl in Hs.
  destruct (isDigit_not_sign _ Hs) as [E1 E2].
  change (String c body ++ rest) with (String c (body ++ rest)).
  cbv beta iota. rewrite E1, E2.
  change (String c (body ++ rest)) with (String c body ++ rest).
  rewrite startsWithDigit_app by exact Hs.
  rewrite parseDigits_app by assumption. do 2 f_equal. lia.
Qed.

Lemma parseInt_literal_prefix v rest :
  isBase10Integer v = true -> startsWithDigit rest = false ->
  parseInt (v ++ rest) = parseInt v /\ parseInt v <> None.
Proof.
  unfold isBase10Integer. intros Hv Hr.
  apply andb_true_iff in Hv as [Hs Hb].
  destruct v as [|c body]; [discriminate|].
  destruct (Ascii.eqb c "-" || Ascii.eqb c "+") eqn:Esign.
  - (* a signed literal *)
    assert (Hw : Str.isWhiteSpace c = false).
    { apply orb_true_iff in Esign as [E|E]; apply Ascii.eqb_eq in E; subst c; reflexivity. }
    unfold parseInt, Str.trimStart.
    change (String c body ++ rest) with (String c (body ++ rest)).
    simpl Str.dropWhile. rewrite Hw.
    assert (Hd : forall sgn, (if startsWithDigit (body ++ rest)
                   then Some (toNumber (sgn * parseDigits 0 (body ++ rest)))
                   else None)
                 = (if startsWithDigit body
                    then Some (toNumber (sgn * parseDigits 0 body))
                    else None)).
    { intros sgn. rewrite startsWithDigit_app, Hs by exact Hs.
      now rewrite parseDigits_app. }
    destruct (Ascii.eqb c "-"); [rewrite Hd, Hs; split; [reflexivity|discriminate]|].
    destruct (Ascii.eqb c "+"); [rewrite Hd, Hs; split; [reflexivity|discriminate]|].
    discriminate.
  - pose proof (parseInt_unsigned (String c body) "" Hs Hb eq_refl) as H0.
    rewrite append_nil_r in H0.
    rewrite H0, (parseInt_unsigned (String c body) rest Hs Hb Hr).
    split; [reflexivity | discriminate].
Qed.

(** C6 (amended).  For a non-empty raw value of [w], [h] or [q]: when no
    base-10 integer can be read at its start it fails with "Invalid
    number"; when the integer read lies outside [[min, max]] it fails
    rather than clamps; when it lies inside, that integer is returned.
    The integer is read from the start of the value only: after a base-10
    integer, any text that does not begin with a digit is ignored. *)
Theorem parseIntParam_validation (v : string) (min max : Z) :
  v <> "" ->
  (parseInt v = None ->
   parseIntParam (Some v) min max = Throw ("Invalid number: " ++ v))
  /\ (forall n, parseInt v = Some n -> n < min \/ max < n ->
      exists m, parseIntParam (Some v) min max = Throw m)
  /\ (forall n, parseInt v = Some n -> min <= n <= max ->
      parseIntParam (Some v) min max = Ok (Some n))
  /\ (forall n, parseIntParam (Some v) min max = Ok (Some n) ->
      parseInt v = Some n /\ min <= n <= max)
  /\ (forall rest, isBase10Integer v = true -> startsWithDigit rest = false ->
      parseInt (v ++ rest) = parseInt v /\ parseInt v <> None).
Proof.
  intros Hne. destruct v as [|c v]; [congruence|]. unfold parseIntParam.
  split; [intros ->; reflexivity|].
  split.
  { intros n -> [H|H].
    - apply Z.ltb_lt in H. rewrite H. simpl. eauto.
    - apply Z.gtb_lt in H. rewrite H, orb_true_r. eauto. }
  split.
  { intros n -> [H1 H2].
    replace (n <? min) with false by (symmetry; apply Z.ltb_ge; lia).
    replace (n >? max) with false by (symmetry; rewrite Z.gtb_ltb; apply Z.ltb_ge; lia).
    reflexivity. }
  split.
  { intros n. destruct (parseInt (String c v)) as [k|]; [|discriminate].
    destruct (k <? min) eqn:E1; [discriminate|].
    destruct (k >? max) eqn:E2; [discriminate|]. simpl.
    intros H; inversion H; subst k. split; [reflexivity|].
    apply Z.ltb_ge in E1. rewrite Z.gtb_ltb in E2. apply Z.ltb_ge in E2. lia. }
  intros rest. apply parseInt_literal_prefix.
Qed.

Lemma parseIntParam_validation_witness :
  parseIntParam (Some "2001") 1 2000
    = Throw "Number out of range: 2001 (min: 1, max: 2000)"
  /\ parseIntParam (Some "640") 1 2000 = Ok (Some 640)
  /\ parseInt "640px" = parseInt "640".
Proof.
  destruct (parseIntParam_validation "640" 1 2000) as (_ & _ & A & _ & P);
    [discriminate|].
  split; [reflexivity|]. split.
  - apply (A 640); [reflexivity | lia].
  - apply (P "px"); reflexivity.
Defined.

(** C6 as stated fails: a value that is not a base-10 integer is accepted
    silently, as the integer it starts with. *)
Lemma parseIntParam_accepts_trailing_text :
  isBase10Integer "12abc" = false
  /\ parseIntParam (Some "12abc") 1 2000 = Ok (Some 12).
Proof. split; reflexivity. Qed.

(** ** Empty values *)

Lemma get_delete_same name ps : get name (delete name ps) = None.
Proof.
  induction ps as [|[k v] ps IH]; simpl; [reflexivity|].
  destruct (String.eqb k name) eqn:E; simpl; [exact IH|].
  now rewrite E.
Qed.

Lemma get_delete_other name other ps :
  String.eqb name other = false -> get other (delete name ps) = get other ps.
Proof.
  intros N. induction ps as [|[k v] ps IH]; simpl; [reflexivity|].
  destruct (String.eqb k name) eqn:E; simpl.
  - apply String.eqb_eq in E. subst k. now rewrite N.
  - destruct (String.eqb k other); [reflexivity | exact IH].
Qed.

(** C10.  Each validated optional parameter treats an empty value as an
    absent one, without raising; and a request with [name=] (empty) for
    one of [w], [h], [q], [fit], [format], [crop], [bg], [bucket] is
    validated exactly as the request with that parameter removed. *)
Theorem empty_value_is_absent :
  (forall min max, parseIntParam (Some "") min max = Ok None
                   /\ parseIntParam None min max = Ok None)
  /\ (parseFitMode (Some "") = Ok cover /\ parseFitMode None = Ok cover)
  /\ (parseFormat (Some "") = Ok None /\ parseFormat None = Ok None)
  /\ (parseCropPosition (Some "") = Ok center
      /\ parseCropPosition None = Ok center)
  /\ (parseBackground (Some "") = Ok None /\ parseBackground None = Ok None)
  /\ forall (ps : URLSearchParams) (limits : ValidationLimits) (name : string),
       In name optionalParams -> get name ps = Some "" ->
       parseQueryParams ps limits = parseQueryParams (delete name ps) limits.
Proof.
  repeat (split; [now auto|]).
  intros ps limits name Hin Hget. unfold parseQueryParams.
  simpl in Hin.
  repeat (destruct Hin as [<-|Hin];
    [ rewrite get_delete_same, Hget,
        ?(get_delete_other _ _ ps) by reflexivity;
      reflexivity | ]).
  contradiction.
Qed.

Lemma empty_value_is_absent_witness :
  parseQueryParams [("path", "a.jpg"); ("w", ""); ("h", "300")]
                   (mkLimits 2000 2000 80 "images")
  = parseQueryParams [("path", "a.jpg"); ("h", "300")]
                     (mkLimits 2000 2000 80 "images").
Proof.
  destruct empty_value_is_absent as (_ & _ & _ & _ & _ & G).
  apply (G [("path", "a.jpg"); ("w", ""); ("h", "300")] _ "w");
    [simpl; auto | reflexivity].
Defined.

(** ** The cache key *)

Lemma startsWith_append p x : Str.startsWith (p ++ x) p = true.
Proof.
  induction p as [|c p IH]; simpl; [reflexivity|].
  now rewrite Ascii.eqb_refl, IH.
Qed.

Lemma append_same_length a1 a2 r1 r2 :
  String.length a1 = String.length a2 ->
  a1 ++ r1 = a2 ++ r2 -> a1 = a2 /\ r1 = r2.
Proof.
  revert a2. induction a1 as [|c a1 IH]; intros [|d a2]; simpl;
    try discriminate; [auto|].
  intros L H. inversion H; subst d. inversion L as [L'].
  destruct (IH _ L' H2) as [-> ->]. auto.
Qed.

(** A run of digits followed by something that does not begin with a
    digit is read back in one way only. *)
Lemma digits_then_rest a1 a2 r1 r2 :
  Str.forallb Str.isDigit a1 = true -> Str.forallb Str.isDigit a2 = true ->
  startsWithDigit r1 = false -> startsWithDigit r2 = false ->
  a1 ++ r1 = a2 ++ r2 -> a1 = a2 /\ r1 = r2.
Proof.
  revert a2. induction a1 as [|c a1 IH]; intros [|d a2]; simpl;
    intros D1 D2 R1 R2 H.
  - auto.
  - subst r1. simpl in R1. apply andb_true_iff in D2 as [D2 _]. congruence.
  - subst r2. simpl in R2. apply andb_true_iff in D1 as [D1 _]. congruence.
  - inversion H; subst d.
    apply andb_true_iff in D1 as [_ D1]. apply andb_true_iff in D2 as [_ D2].
    destruct (IH _ D1 D2 R1 R2 H2) as [-> ->]. auto.
Qed.

Lemma string_of_uint_digits d :
  Str.forallb Str.isDigit (NilEmpty.string_of_uint d) = true.
Proof. induction d; simpl; auto. Qed.

(** Integers up to 2^53 in magnitude are numbers, rendered by their
    decimal digits. *)
Lemma toNumber_safe z : Z.abs z <= 9007199254740992 -> toNumber z = z.
Proof.
  intros Hz. unfold toNumber.
  now replace (Z.abs z <=? 9007199254740992) with true
    by (symmetry; now apply Z.leb_le).
Qed.

Lemma Number_toString_safe z :
  Z.abs z <= 9007199254740992 -> Number_toString z = decimal z.
Proof.
  intros Hz. unfold Number_toString. rewrite (toNumber_safe z Hz).
  now replace (Z.abs z <=? 9007199254740992) with true
    by (symmetry; now apply Z.leb_le).
Qed.

(** [toNumber] is the rounding of binary64, checked by evaluation
    against the conversion of the IEEE-754 specification on integers at
    the ends of its ranges. *)
Lemma toNumber_binary64_checked :
  forallb (fun z =>
             numberOfFloat (SpecFloat.binary_normalize 53 1024 z 0 false)
             =? toNumber z) awkwardIntegers = true.
Proof. vm_compute. reflexivity. Qed.

Lemma Number_toString_digits z :
  safeNatural z -> Str.forallb Str.isDigit (Number_toString z) = true.
Proof.
  intros Hz. unfold safeNatural in Hz.
  rewrite Number_toString_safe by lia. unfold decimal.
  destruct z as [|p|p]; [reflexivity| |lia].
  simpl. unfold NilZero.string_of_uint.
  destruct (Pos.to_uint p); try reflexivity; apply string_of_uint_digits.
Qed.

Lemma Number_toString_inj z1 z2 :
  safeNatural z1 -> safeNatural z2 ->
  Number_toString z1 = Number_toString z2 -> z1 = z2.
Proof.
  unfold safeNatural. intros H1 H2 E.
  rewrite !Number_toString_safe in E by lia. unfold decimal in E.
  destruct H1 as [H1 _], H2 as [H2 _].
  apply DecimalZ.to_int_inj.
  assert (N : forall z, 0 <= z -> exists d, Z.to_int z = Pos d /\ d <> Nil).
  { intros [|p|p] Hz; [eexists; split; [reflexivity|discriminate]
                      | exists (Pos.to_uint p); split;
                        [reflexivity | apply DecimalPos.Unsigned.to_uint_nonnil]
                      | lia]. }
  destruct (N _ H1) as (d1 & E1 & N1), (N _ H2) as (d2 & E2 & N2).
  rewrite E1, E2 in *. simpl in E.
  pose proof (NilZero.usu d1 N1) as U1. pose proof (NilZero.usu d2 N2) as U2.
  rewrite E in U1. congruence.
Qed.

Lemma join_cons sep p parts :
  Str.join sep (p :: parts)
  = p ++ fold_right (fun x acc => sep ++ x ++ acc) "" parts.
Proof.
  revert p. induction parts as [|q parts IH]; intros p.
  - simpl. now rewrite append_nil_r.
  - change (Str.join sep (p :: q :: parts))
      with (p ++ sep ++ Str.join sep (q :: parts)).
    now rewrite IH.
Qed.

Lemma join_first sep p parts :
  Str.join sep ([p] ++ parts)%list
  = p ++ fold_right (fun x acc => sep ++ x ++ acc) "" parts.
Proof. exact (join_cons sep p parts). Qed.

(** The key is the path without its extension followed by the present
    components, in their order, and the extension. *)
Lemma buildCacheKey_suffix c :
  buildCacheKey c = stripExtension c.(path) ++ keySuffix (keyFields c).
Proof.
  unfold buildCacheKey, cacheKeyParts.
  rewrite join_first, append_assoc. f_equal.
  unfold keySuffix, tailH, tailFit, tailFmt, tailQ, tailBg, tailCrop, tailExt,
    keyFields, dimensioned, outputFormat; simpl.
  destruct c as [b p w h f m q g cr n]; simpl.
  destruct (truthyNum w) eqn:Ew, (truthyNum h) eqn:Eh;
    destruct w as [w|], h as [h|]; try discriminate;
    destruct (FitMode_eqb f cover), (CropPosition_eqb cr center),
      (q =? 80), g as [[|g0 g]|];
    destruct m as [m|];
    try destruct (ImageFormat_eqb m (inferFormatFromPath p));
    repeat (progress (simpl; rewrite ?append_assoc, ?append_nil_r));
    reflexivity.
Qed.

(** *** Reading a suffix back *)

Section Segment.
Context {A : Type} (tag : string) (enc : A -> string) (good : A -> Prop).

Hypothesis enc_split :
  forall a1 a2 r1 r2, good a1 -> good a2 ->
    startsWithDigit r1 = false -> startsWithDigit r2 = false ->
    enc a1 ++ r1 = enc a2 ++ r2 -> a1 = a2 /\ r1 = r2.

Let goodOpt (v : option A) : Prop :=
  match v with Some a => good a | None => True end.

Lemma segment_split v1 v2 r1 r2 :
  goodOpt v1 -> goodOpt v2 -> follows tag r1 -> follows tag r2 ->
  segment tag enc v1 r1 = segment tag enc v2 r2 -> v1 = v2 /\ r1 = r2.
Proof.
  intros G1 G2 [T1 D1] [T2 D2].
  assert (P : forall a r, segment tag enc (Some a) r
                          = ("__" ++ tag ++ "=") ++ enc a ++ r).
  { intros a r. unfold segment. now rewrite !append_assoc. }
  destruct v1 as [a1|], v2 as [a2|]; rewrite ?P.
  - intros H. apply append_inv_head in H.
    destruct (enc_split a1 a2 r1 r2 G1 G2 D1 D2 H) as [-> ->]. auto.
  - unfold segment. intros H. rewrite <- H, startsWith_append in T2.
    discriminate.
  - unfold segment. intros H. rewrite H, startsWith_append in T1.
    discriminate.
  - unfold segment. auto.
Qed.
End Segment.

Ltac tail_cases k :=
  destruct k as [w h f m q b c e]; unfold follows;
  cbv [tailH tailFit tailFmt tailQ tailBg tailCrop tailExt segment
       k_w k_h k_fit k_fmt k_q k_bg k_crop k_ext];
  repeat match goal with
         | |- context [match ?o with Some _ => _ | None => _ end] => destruct o
         end;
  try destruct e; split; reflexivity.

Lemma tailH_follows k : follows "w" (tailH k).
Proof. tail_cases k. Qed.
Lemma tailFit_follows k : follows "h" (tailFit k).
Proof. tail_cases k. Qed.
Lemma tailFmt_follows k : follows "fit" (tailFmt k).
Proof. tail_cases k. Qed.
Lemma tailQ_follows k : follows "fmt" (tailQ k).
Proof. tail_cases k. Qed.
Lemma tailBg_follows k : follows "q" (tailBg k).
Proof. tail_cases k. Qed.
Lemma tailCrop_follows k : follows "bg" (tailCrop k).
Proof. tail_cases k. Qed.
Lemma tailExt_follows k : follows "crop" (tailExt k).
Proof. tail_cases k. Qed.

Lemma number_split z1 z2 r1 r2 :
  safeNatural z1 -> safeNatural z2 ->
  startsWithDigit r1 = false -> startsWithDigit r2 = false ->
  Number_toString z1 ++ r1 = Number_toString z2 ++ r2 -> z1 = z2 /\ r1 = r2.
Proof.
  intros H1 H2 D1 D2 H.
  destruct (digits_then_rest _ _ _ _ (Number_toString_digits _ H1)
              (Number_toString_digits _ H2) D1 D2 H) as [E ->].
  split; [now apply Number_toString_inj | reflexivity].
Qed.

Ltac enum_split a1 a2 :=
  destruct a1, a2; simpl; intros H;
  first [ discriminate H
        | split; [reflexivity|]; repeat (injection H as H); exact H ].

Lemma fit_split (a1 a2 : FitMode) r1 r2 :
  FitMode_toString a1 ++ r1 = FitMode_toString a2 ++ r2 -> a1 = a2 /\ r1 = r2.
Proof. enum_split a1 a2. Qed.

Lemma format_split (a1 a2 : ImageFormat) r1 r2 :
  ImageFormat_toString a1 ++ r1 = ImageFormat_toString a2 ++ r2 ->
  a1 = a2 /\ r1 = r2.
Proof. enum_split a1 a2. Qed.

Lemma crop_split (a1 a2 : CropPosition) r1 r2 :
  CropPosition_toString a1 ++ r1 = CropPosition_toString a2 ++ r2 ->
  a1 = a2 /\ r1 = r2.
Proof. enum_split a1 a2. Qed.

(** The suffix of a key determines its components. *)
Lemma keySuffix_inj k1 k2 :
  wellFormedKey k1 -> wellFormedKey k2 ->
  keySuffix k1 = keySuffix k2 -> k1 = k2.
Proof.
  intros (W1 & H1 & Q1 & B1) (W2 & H2 & Q2 & B2) E.
  unfold keySuffix in E.
  apply (segment_split "w" Number_toString safeNatural number_split)
    in E as [Ew E]; auto using tailH_follows.
  unfold tailH in E.
  apply (segment_split "h" Number_toString safeNatural number_split)
    in E as [Eh E]; auto using tailFit_follows.
  unfold tailFit in E.
  apply (segment_split "fit" FitMode_toString (fun _ => True)) in E as [Ef E];
    try (intros; eapply fit_split; eassumption);
    auto using tailFmt_follows; try (now destruct (k_fit k1)); try (now destruct (k_fit k2)).
  unfold tailFmt in E.
  apply (segment_split "fmt" ImageFormat_toString (fun _ => True)) in E as [Em E];
    try (intros; eapply format_split; eassumption);
    auto using tailQ_follows; try (now destruct (k_fmt k1)); try (now destruct (k_fmt k2)).
  unfold tailQ in E.
  apply (segment_split "q" Number_toString safeNatural number_split)
    in E as [Eq E]; auto using tailBg_follows.
  unfold tailBg in E.
  apply (segment_split "bg" (fun b => b) (fun b => String.length b = 6%nat))
    in E as [Eb E]; auto using tailCrop_follows.
  2:{ intros a1 a2 r1 r2 L1 L2 _ _ H. apply append_same_length; congruence. }
  unfold tailCrop in E.
  apply (segment_split "crop" CropPosition_toString (fun _ => True)) in E as [Ec E];
    try (intros; eapply crop_split; eassumption);
    auto using tailExt_follows; try (now destruct (k_crop k1)); try (now destruct (k_crop k2)).
  unfold tailExt in E.
  destruct k1, k2; simpl in *. subst.
  f_equal. destruct k_ext0, k_ext1; simpl in E; congruence.
Qed.

(** *** From configurations to components and back *)

Lemma isHexColor_length b : isHexColor b = true -> String.length b = 6%nat.
Proof.
  unfold isHexColor. intros H. apply andb_true_iff in H as [H _].
  now apply Nat.eqb_eq.
Qed.

Lemma inRange_truthy hi v :
  hi <= 9007199254740992 -> inRange 1 hi v = true ->
  (if truthyNum v then v else None) = v /\ nonNegative v.
Proof.
  intros Hhi. destruct v as [z|]; simpl; [|auto]. intros H.
  apply andb_true_iff in H as [H U]. apply Z.leb_le in H, U.
  replace (z =? 0) with false by (symmetry; apply Z.eqb_neq; lia).
  simpl. split; [reflexivity | unfold safeNatural; lia].
Qed.

Lemma validConfig_fields limits c :
  safeLimits limits ->
  validConfig limits c = true ->
  k_w (keyFields c) = c.(width) /\ k_h (keyFields c) = c.(height)
  /\ k_bg (keyFields c) = c.(background)
  /\ wellFormedKey (keyFields c).
Proof.
  unfold validConfig. intros [Sw Sh] V.
  repeat (apply andb_true_iff in V as [V ?]).
  destruct (inRange_truthy _ _ Sw H2) as [Ew Nw].
  destruct (inRange_truthy _ _ Sh H1) as [Eh Nh].
  destruct (inRange_truthy 100 _ ltac:(lia) H0) as [_ Nq].
  unfold wellFormedKey, keyFields; cbn [k_w k_h k_q k_bg].
  rewrite Ew, Eh.
  assert (Eb : (if Str.truthy (background c) then background c else None)
               = background c /\ sixChars (background c)).
  { destruct (background c) as [b|]; [|simpl; auto].
    apply isHexColor_length in H. destruct b; [discriminate|]. simpl. auto. }
  destruct Eb as [Eb Sb]. rewrite Eb.
  repeat split; auto.
  destruct (negb (quality c =? 80)); simpl; auto.
Qed.

Lemma keyed_of_keyFields limits c1 c2 :
  safeLimits limits ->
  validConfig limits c1 = true -> validConfig limits c2 = true ->
  keyFields c1 = keyFields c2 -> keyed c1 = keyed c2.
Proof.
  intros SL V1 V2 E.
  destruct (validConfig_fields _ _ SL V1) as (W1 & H1 & B1 & _).
  destruct (validConfig_fields _ _ SL V2) as (W2 & H2 & B2 & _).
  rewrite E in W1, H1, B1.
  assert (Ew : width c1 = width c2) by congruence.
  assert (Eh : height c1 = height c2) by congruence.
  assert (Eb : background c1 = background c2) by congruence.
  assert (Ed : dimensioned c1 = dimensioned c2)
    by (unfold dimensioned; now rewrite Ew, Eh).
  unfold keyed. rewrite <- Ed, Ew, Eh, Eb.
  pose proof (f_equal k_fit E) as Ef. pose proof (f_equal k_crop E) as Ec.
  pose proof (f_equal k_q E) as Eq. pose proof (f_equal k_ext E) as Ex.
  cbn [keyFields k_fit k_crop k_q k_ext] in Ef, Ec, Eq, Ex.
  rewrite <- Ed in Ef, Ec. rewrite Ex.
  assert (Q : quality c1 = quality c2).
  { destruct (quality c1 =? 80) eqn:Q1, (quality c2 =? 80) eqn:Q2;
      simpl in Eq; try discriminate.
    - apply Z.eqb_eq in Q1, Q2. congruence.
    - congruence. }
  rewrite Q. f_equal.
  - destruct (dimensioned c1); [|reflexivity].
    destruct (fit c1), (fit c2); simpl in Ef; congruence.
  - destruct (dimensioned c1); [|reflexivity].
    destruct (crop c1), (crop c2); simpl in Ec; congruence.
Qed.

Lemma keyFields_of_keyed c1 c2 :
  path c1 = path c2 -> keyed c1 = keyed c2 -> keyFields c1 = keyFields c2.
Proof.
  intros P E.
  pose proof (f_equal r_width E) as Ew. pose proof (f_equal r_height E) as Eh.
  pose proof (f_equal r_fit E) as Ef. pose proof (f_equal r_format E) as Em.
  pose proof (f_equal r_quality E) as Eq.
  pose proof (f_equal r_background E) as Eb.
  pose proof (f_equal r_crop E) as Ec.
  cbn [keyed r_width r_height r_fit r_format r_quality r_background r_crop]
    in Ew, Eh, Ef, Em, Eq, Eb, Ec.
  assert (Ed : dimensioned c1 = dimensioned c2)
    by (unfold dimensioned; now rewrite Ew, Eh).
  rewrite <- Ed in Ef, Ec.
  unfold keyFields. rewrite <- Ed, Ew, Eh, Eq, Eb, Em, <- P. f_equal.
  - destruct (dimensioned c1); [now rewrite Ef | now rewrite !andb_false_r].
  - unfold outputFormat in Em. rewrite <- P in Em.
    destruct (format c1) as [f1|], (format c2) as [f2|]; simpl in Em;
      subst; try reflexivity;
      destruct (inferFormatFromPath (path c1)); try destruct f1;
      try destruct f2; reflexivity.
  - destruct (dimensioned c1); [now rewrite Ec | now rewrite !andb_false_r].
Qed.

Lemma keyed_of_resolved c1 c2 : resolved c1 = resolved c2 -> keyed c1 = keyed c2.
Proof.
  intros E.
  pose proof (f_equal r_width E) as Ew. pose proof (f_equal r_height E) as Eh.
  pose proof (f_equal r_fit E) as Ef. pose proof (f_equal r_format E) as Em.
  pose proof (f_equal r_quality E) as Eq.
  pose proof (f_equal r_background E) as Eb.
  pose proof (f_equal r_crop E) as Ec.
  cbn in Ew, Eh, Ef, Em, Eq, Eb, Ec.
  unfold keyed, dimensioned. now rewrite Ew, Eh, Ef, Em, Eq, Eb, Ec.
Qed.

(** X24.  Under limits on the dimensions of at most 2^53, two valid
    configurations of the same source path that differ in width, height,
    output format, quality or background, or, when a dimension is
    specified, in fit or crop, have different cache keys. *)
Theorem buildCacheKey_distinguishes limits (c1 c2 : TransformConfig) :
  safeLimits limits ->
  validConfig limits c1 = true -> validConfig limits c2 = true ->
  path c1 = path c2 ->
  keyed c1 <> keyed c2 ->
  buildCacheKey c1 <> buildCacheKey c2.
Proof.
  intros SL V1 V2 P D E. apply D.
  rewrite !buildCacheKey_suffix, P in E. apply append_inv_head in E.
  apply (keyed_of_keyFields limits); auto.
  apply keySuffix_inj; auto; eapply validConfig_fields; eassumption.
Qed.

Lemma buildCacheKey_distinguishes_witness :
  buildCacheKey
    (mkConfig "images" "a.jpg" (Some 400) None cover None 80 None center false)
  <> buildCacheKey
       (mkConfig "images" "a.jpg" (Some 400) None contain None 80 None center false).
Proof.
  apply (buildCacheKey_distinguishes defaultLimits);
    [split; simpl; lia | reflexivity | reflexivity | reflexivity
    | discriminate].
Defined.

(** C1.  The failing input: the requests [path=a.png&bg=ffffff] and
    [path=a.png&bg=ffffff&fit=contain].  Without a dimension, two valid
    configurations of one path that differ in their resolved fit share a
    key, against the comment of [buildCacheKey] (fit is added when it is
    not the default), and the transform does not treat them alike: with
    a background, contain lays the raster over the background and cover
    does not, so one cached derivative answers both requests. *)
Theorem buildCacheKey_fit_collision :
  parseQueryParams [("path", "a.png"); ("bg", "ffffff")] defaultLimits
  = Ok coverNoDims
  /\ parseQueryParams [("path", "a.png"); ("bg", "ffffff");
                       ("fit", "contain")] defaultLimits
     = Ok containNoDims
  /\ validConfig defaultLimits coverNoDims = true
  /\ validConfig defaultLimits containNoDims = true
  /\ path coverNoDims = path containNoDims
  /\ resolved coverNoDims <> resolved containNoDims
  /\ buildCacheKey coverNoDims = buildCacheKey containNoDims
  /\ transformImage (num := PrimFloat.float) (H0 := layeredCodec) [x01]
       coverNoDims png
     <> transformImage (num := PrimFloat.float) (H0 := layeredCodec) [x01]
          containNoDims png.
Proof.
  repeat split; try reflexivity; discriminate.
Qed.

(** C3.  Two configurations of the same source path that resolve to the
    same width, height, fit, output format, quality, background and crop
    have the same cache key. *)
Theorem buildCacheKey_collapses (c1 c2 : TransformConfig) :
  path c1 = path c2 ->
  resolved c1 = resolved c2 ->
  buildCacheKey c1 = buildCacheKey c2.
Proof.
  intros P E. rewrite !buildCacheKey_suffix, P.
  f_equal. f_equal. apply keyFields_of_keyed; [exact P|].
  now apply keyed_of_resolved.
Qed.

Lemma buildCacheKey_collapses_witness :
  buildCacheKey
    (mkConfig "images" "a.jpg" (Some 400) None cover None 80 None center false)
  = buildCacheKey
      (mkConfig "other" "a.jpg" (Some 400) None cover (Some jpeg) 80 None center true).
Proof.
  apply buildCacheKey_collapses; reflexivity.
Defined.

(** C2 (amended).  The key carries the component [q=<quality>] exactly
    when the quality differs from 80, the default the key derivation
    uses, whatever default quality is configured. *)
Theorem quality_component_iff_not_80 (c : TransformConfig) :
  hasQualityComponent c = negb (quality c =? 80)
  /\ (hasQualityComponent c = true ->
      In ("q=" ++ Number_toString (quality c)) (tl (cacheKeyParts c))).
Proof.
  unfold hasQualityComponent, cacheKeyParts. cbn [tl app].
  destruct c as [b p w h f m q g cr n]; cbn [width height fit format quality
                                           background crop path].
  destruct (truthyNum w), (truthyNum h), (FitMode_eqb f cover),
    (CropPosition_eqb cr center), (negb (q =? 80)), (Str.truthy g);
    destruct m as [m|];
    try destruct (ImageFormat_eqb m (inferFormatFromPath p));
    (split; [reflexivity
            | intros E; first [discriminate E | simpl; auto 10]]).
Qed.

Lemma quality_component_iff_not_80_witness :
  In "q=75" (tl (cacheKeyParts
       (mkConfig "images" "a.jpg" None None cover None 75 None center false))).
Proof.
  apply (quality_component_iff_not_80
           (mkConfig "images" "a.jpg" None None cover None 75 None center
                     false)).
  reflexivity.
Defined.

(** C2 as stated fails: under a configured default of 75, a request
    without [q] has the default quality and yet its key carries [q=75];
    a request with [q=80] has another quality and its key carries no
    quality component. *)
Lemma quality_component_ignores_configured_default :
  (exists c, parseQueryParams [("path", "a.jpg")] limitsQuality75 = Ok c
             /\ quality c = defaultQuality limitsQuality75
             /\ hasQualityComponent c = true
             /\ buildCacheKey c = "a__q=75.jpg")
  /\ (exists c,
        parseQueryParams [("path", "a.jpg"); ("q", "80")] limitsQuality75
        = Ok c
        /\ quality c <> defaultQuality limitsQuality75
        /\ hasQualityComponent c = false
        /\ buildCacheKey c = "a.jpg").
Proof.
  split; eexists; (split; [reflexivity|]);
    cbn [quality defaultQuality limitsQuality75];
    repeat split; try reflexivity; discriminate.
Qed.

(** *** The validator builds valid configurations *)

Lemma sanitizePath_valid p s : sanitizePath p = Ok s -> validPath s = true.
Proof.
  unfold sanitizePath, validPath.
  destruct (Str.includes _ ".." || Str.startsWith _ "/") eqn:E; [discriminate|].
  apply orb_false_iff in E as [E1 E2].
  destruct (stripSlashes (Str.trim p)) as [|c r] eqn:Es.
  - simpl. discriminate.
  - cbn [Str.truthy negb]. intros H. inversion H; subst s.
    rewrite E1, E2. reflexivity.
Qed.

Lemma parseIntParam_inRange v lo hi o :
  parseIntParam v lo hi = Ok o -> inRange lo hi o = true.
Proof.
  unfold parseIntParam.
  destruct v as [[|c v]|]; try (intros H; inversion H; reflexivity).
  destruct (parseInt (String c v)) as [n|]; [|discriminate].
  destruct (n <? lo) eqn:E1; [discriminate|].
  destruct (n >? hi) eqn:E2; [discriminate|].
  intros H; inversion H; subst o. simpl.
  apply Z.ltb_ge in E1. rewrite Z.gtb_ltb in E2. apply Z.ltb_ge in E2.
  apply andb_true_iff. split; now apply Z.leb_le.
Qed.

Lemma parseBackground_hex v o :
  parseBackground v = Ok o ->
  match o with Some b => isHexColor b | None => true end = true.
Proof.
  unfold parseBackground.
  destruct v as [[|c v]|]; try (intros H; inversion H; reflexivity).
  destruct (isHexColor (String c v)) eqn:E; [|discriminate].
  intros H; inversion H; subst o. exact E.
Qed.

Lemma bind_Ok {A B} (r : result A) (k : A -> result B) b :
  bind r k = Ok b -> exists a, r = Ok a /\ k a = Ok b.
Proof. destruct r; simpl; [eauto | discriminate]. Qed.

(** X5.  With a configuration whose default bucket is not empty and
    whose default quality lies between 1 and 100, every configuration
    that [parseQueryParams] returns is valid: the path is sanitized, the
    dimensions and the quality lie within the limits, and the background,
    when present, is six hexadecimal digits. *)
Lemma parseQueryParams_valid ps limits c :
  defaultBucket limits <> "" ->
  1 <= defaultQuality limits <= 100 ->
  parseQueryParams ps limits = Ok c -> validConfig limits c = true.
Proof.
  intros Hb Hq. unfold parseQueryParams.
  destruct (get "path" ps) as [[|c0 raw]|]; try discriminate.
  intros H.
  apply bind_Ok in H as (p & Hp & H). apply bind_Ok in H as (w & Hw & H).
  apply bind_Ok in H as (h & Hh & H). apply bind_Ok in H as (f & _ & H).
  apply bind_Ok in H as (m & _ & H). apply bind_Ok in H as (q & Hqv & H).
  apply bind_Ok in H as (g & Hg & H). apply bind_Ok in H as (cr & _ & H).
  inversion H; subst c; clear H.
  apply sanitizePath_valid in Hp. apply parseIntParam_inRange in Hw, Hh, Hqv.
  apply parseBackground_hex in Hg.
  unfold validConfig; cbn [bucket path width height quality background].
  rewrite Hp, Hw, Hh, Hg, !andb_true_r.
  apply andb_true_iff. split.
  - apply negb_true_iff, String.eqb_neq.
    destruct (get "bucket" ps) as [[|? ?]|]; simpl; congruence.
  - destruct q as [z|]; simpl in *.
    + apply andb_true_iff in Hqv as [L U]. apply Z.leb_le in L.
      replace (z =? 0) with false by (symmetry; apply Z.eqb_neq; lia).
      rewrite U. apply andb_true_iff; split; [now apply Z.leb_le | reflexivity].
    + apply andb_true_iff; split; apply Z.leb_le; lia.
Qed.


(** ** Geometry *)

Lemma inject_Z_bounds (z lo hi : Z) :
  lo <= z <= hi -> (lo # 1 <= inject_Z z /\ inject_Z z <= hi # 1)%Q.
Proof. unfold Qle, inject_Z; simpl. lia. Qed.

(** Exact arithmetic obeys the laws. *)
#[export] Instance Exact_laws : JsNumberLaws Q.
Proof.
  split.
  - intros z _. split; reflexivity.
  - intros x y _ _. simpl. rewrite negb_true_iff. split.
    + intros E. apply Qnot_le_lt. intros C.
      apply Qle_bool_iff in C. congruence.
    + intros C. destruct (Qle_bool x y) eqn:E; [|reflexivity].
      apply Qle_bool_iff in E. exfalso. apply (Qlt_not_le _ _ C E).
  - intros x y _ _ Mx _ Py. simpl in *. split; [reflexivity|].
    assert (E : (x / y * y == x)%Q) by (field; intros C; rewrite C in Py; lra).
    rewrite E. unfold unitRoundoff, moderate in *. split; destruct Mx; lra.
  - intros x y _ _ Mx My. simpl in *. split; [reflexivity|].
    assert (P : (0 <= x * y)%Q).
    { apply Qmult_le_0_compat; unfold moderate in *;
        [destruct Mx | destruct My]; lra. }
    unfold unitRoundoff. split; lra.
Qed.

Section GeometryLaws.
Context {num : Type} {N : JsNumber num} {L : JsNumberLaws num}.

Local Open Scope Q_scope.

Lemma Math_round_ge (x : num) (n : Z) :
  inject_Z n - (1 # 2) <= value x -> (n <= Math_round x)%Z.
Proof.
  intros H. unfold Math_round. rewrite <- (Qfloor_Z n).
  apply Qfloor_resp_le. lra.
Qed.

Lemma Math_round_le (x : num) (n : Z) :
  value x + (1 # 2) < inject_Z n + 1 -> (Math_round x <= n)%Z.
Proof.
  intros H. unfold Math_round.
  pose proof (Qfloor_le (value x + (1 # 2))) as F.
  apply Z.lt_succ_r. rewrite Zlt_Qlt.
  unfold Z.succ. rewrite inject_Z_plus. change (inject_Z 1) with 1. lra.
Qed.

Lemma value_dimension z :
  dimension z ->
  value (ofZ z) == inject_Z z
  /\ 1 <= inject_Z z <= 67108864 # 1
  /\ moderate (value (ofZ z))
  /\ isFinite (ofZ z) = true.
Proof.
  intros D. unfold dimension in D.
  destruct (ofZ_exact z) as [F E]; [lia|].
  destruct (inject_Z_bounds z 1 67108864 D) as [B1 B2].
  repeat split; auto. right. lra.
Qed.

(** The quotient of two dimensions, as computed. *)
Lemma ratio_bounds (x y : Z) :
  dimension x -> dimension y ->
  let a := value (div (ofZ x) (ofZ y)) in
  (1 - unitRoundoff) * inject_Z x <= a * inject_Z y
  /\ a * inject_Z y <= (1 + unitRoundoff) * inject_Z x
  /\ 1 - unitRoundoff <= a * (67108864 # 1)
  /\ a <= 67108865 # 1
  /\ isFinite (div (ofZ x) (ofZ y)) = true.
Proof.
  intros Dx Dy a.
  destruct (value_dimension x Dx) as (Ex & [X1 X2] & Mx & Fx).
  destruct (value_dimension y Dy) as (Ey & [Y1 Y2] & My & Fy).
  destruct (div_accurate (ofZ x) (ofZ y) Fx Fy Mx My) as (Fa & Lo & Hi);
    [lra|].
  fold a in Lo, Hi. rewrite Ex, Ey in Lo, Hi. unfold unitRoundoff in *.
  repeat split; auto.
  - assert (Pa : 0 <= a).
    { destruct (Qlt_le_dec a 0) as [C|C]; [exfalso|exact C].
      assert (P : 0 <= (0 - a) * inject_Z y)
        by (apply Qmult_le_0_compat; lra).
      lra. }
    assert (P : 0 <= a * ((67108864 # 1) - inject_Z y))
      by (apply Qmult_le_0_compat; lra).
    lra.
  - destruct (Qlt_le_dec (67108865 # 1) a) as [C|C]; [exfalso|exact C].
    assert (P : 0 <= (a - (67108865 # 1)) * (inject_Z y - 1))
      by (apply Qmult_le_0_compat; lra).
    lra.
Qed.

Lemma ratio_moderate (x y : Z) :
  dimension x -> dimension y -> moderate (value (div (ofZ x) (ofZ y))).
Proof.
  intros Dx Dy. destruct (ratio_bounds x y Dx Dy) as (_ & _ & B1 & B2 & _).
  unfold unitRoundoff in B1. right. lra.
Qed.

(** In cover mode the resized raster covers the target box, and stays
    below 2^53 on both axes. *)
Lemma cover_covers (ow oh tw th : Z) :
  dimension ow -> dimension oh -> dimension tw -> dimension th ->
  let d := calculateDimensions ow oh (Some tw) (Some th) cover in
  (tw <= Dimensions.width d <= 9007199254740992)%Z
  /\ (th <= Dimensions.height d <= 9007199254740992)%Z
  /\ Dimensions.shouldCrop d = true.
Proof.
  intros Dow Doh Dtw Dth.
  assert (Tw : truthyNum (Some tw) = true)
    by (unfold dimension in Dtw; simpl; apply negb_true_iff, Z.eqb_neq; lia).
  assert (Th : truthyNum (Some th) = true)
    by (unfold dimension in Dth; simpl; apply negb_true_iff, Z.eqb_neq; lia).
  unfold calculateDimensions. rewrite Tw, Th. cbn [negb andb numberOf].
  destruct (ratio_bounds ow oh Dow Doh) as (A1 & A2 & A3 & A4 & Fa).
  destruct (ratio_bounds tw th Dtw Dth) as (T1 & T2 & _ & _ & Ft).
  pose proof (ratio_moderate ow oh Dow Doh) as Ma.
  destruct (value_dimension ow Dow) as (_ & [OW1 OW2] & _).
  destruct (value_dimension oh Doh) as (_ & [OH1 OH2] & _).
  destruct (value_dimension tw Dtw) as (Etw & [TW1 TW2] & Mtw & Ftw).
  destruct (value_dimension th Dth) as (Eth & [TH1 TH2] & Mth & Fth).
  set (a := div (ofZ ow) (ofZ oh)) in *.
  set (t := div (ofZ tw) (ofZ th)) in *.
  unfold unitRoundoff in *. unfold dimension in Dtw, Dth.
  destruct (gt a t) eqn:G; cbn [Dimensions.width Dimensions.height
                                 Dimensions.shouldCrop].
  - (* wider than the target: the height is fitted *)
    apply (gt_value _ _ Fa Ft) in G.
    destruct (mul_accurate (ofZ th) a Fth Fa Mth Ma) as (_ & M1 & M2).
    rewrite Eth in M1, M2. unfold unitRoundoff in *.
    set (m := value (mul (ofZ th) a)) in *.
    assert (P : 0 <= (value a - value t) * inject_Z th)
      by (apply Qmult_le_0_compat; lra).
    assert (P' : 0 <= ((67108865 # 1) - value a) * inject_Z th)
      by (apply Qmult_le_0_compat; lra).
    repeat split; try lia.
    + apply Math_round_ge. fold m. lra.
    + apply Math_round_le. fold m.
      change (inject_Z 9007199254740992) with (9007199254740992 # 1). lra.
  - (* not wider: the width is fitted *)
    assert (G' : value a <= value t).
    { apply Qnot_lt_le. intros C. apply (gt_value _ _ Fa Ft) in C.
      congruence. }
    destruct (div_accurate (ofZ tw) a Ftw Fa Mtw Ma) as (_ & V1 & V2);
      [lra|].
    rewrite Etw in V1, V2. unfold unitRoundoff in *.
    set (v := value (div (ofZ tw) a)) in *.
    repeat split; try lia.
    + apply Math_round_ge. fold v.
      destruct (Qlt_le_dec v (inject_Z th - (1 # 2))) as [C|C]; [exfalso|exact C].
      assert (P1 : 0 <= (inject_Z th - (1 # 2) - v) * value a)
        by (apply Qmult_le_0_compat; lra).
      assert (P2 : 0 <= (inject_Z th - (1 # 2)) * (value t - value a))
        by (apply Qmult_le_0_compat; lra).
      assert (T : value t <= (4 # 9007199254740992) * inject_Z tw) by lra.
      assert (P3 : 0 <= ((4 # 9007199254740992) * inject_Z tw - value t)
                        * inject_Z th)
        by (apply Qmult_le_0_compat; lra).
      assert (P4 : 0 <= inject_Z tw * ((67108864 # 1) - inject_Z th))
        by (apply Qmult_le_0_compat; lra).
      lra.
    + apply Math_round_le. fold v.
      change (inject_Z 9007199254740992) with (9007199254740992 # 1).
      destruct (Qlt_le_dec v (9007199254740990 # 1)) as [C|C]; [lra|exfalso].
      assert (P1 : 0 <= (v - (9007199254740990 # 1))
                        * (value a * (67108864 # 1)
                           - (1 - (1 # 9007199254740992))))
        by (apply Qmult_le_0_compat; lra).
      lra.
Qed.

(** Half of a non-negative excess, rounded, lies within the excess. *)
Lemma half_within (d : Z) :
  (0 <= d <= 9007199254740992)%Z ->
  (0 <= Math_round (div (ofZ d) (ofZ 2)) <= d)%Z.
Proof.
  intros D.
  destruct (ofZ_exact d) as [Fd Ed]; [lia|].
  destruct (ofZ_exact 2) as [F2 E2]; [lia|]. change (inject_Z 2) with 2 in E2.
  destruct (inject_Z_bounds d 0 9007199254740992 D) as [B1 B2].
  assert (Md : moderate (value (ofZ d))).
  { destruct (Z.eq_dec d 0) as [->|Nz]; [left; exact Ed|right].
    destruct (inject_Z_bounds d 1 9007199254740992) as [C1 C2]; [lia|].
    lra. }
  assert (M2 : moderate (value (ofZ 2))) by (right; lra).
  destruct (div_accurate (ofZ d) (ofZ 2) Fd F2 Md M2) as (_ & Lo & Hi);
    [lra|].
  rewrite Ed, E2 in Lo, Hi. unfold unitRoundoff in *.
  set (v := value (div (ofZ d) (ofZ 2))) in *.
  split.
  - apply Math_round_ge. fold v. change (inject_Z 0) with 0. lra.
  - apply Math_round_le. fold v. lra.
Qed.

Lemma cropOffsets_within (w h tw th : Z) (position : CropPosition) :
  (tw <= w <= 9007199254740992)%Z -> (th <= h <= 9007199254740992)%Z ->
  (0 <= tw)%Z -> (0 <= th)%Z ->
  let '(x, y) := cropOffsets w h tw th position in
  (0 <= x /\ 0 <= y /\ x + tw <= w /\ y + th <= h)%Z.
Proof.
  intros W H Tw Th.
  pose proof (half_within (w - tw)) as Hx.
  pose proof (half_within (h - th)) as Hy.
  destruct position; cbn [cropOffsets]; lia.
Qed.
End GeometryLaws.

(** C4.  On a 1000 by 800 source with both targets 400:
    contain gives 400 by 320 without crop, fill gives 400 by 400 without
    crop, cover gives at least 400 on both axes (500 by 400) with crop.
    This is computed in binary64, as the engine does, and agrees with
    exact arithmetic. *)
Theorem calculateDimensions_1000x800 :
  calculateDimensions (num := PrimFloat.float) 1000 800 (Some 400) (Some 400)
                      contain
  = Dimensions.mk 400 320 false
  /\ calculateDimensions (num := PrimFloat.float) 1000 800 (Some 400)
                         (Some 400) fill
     = Dimensions.mk 400 400 false
  /\ (let d := calculateDimensions (num := PrimFloat.float) 1000 800
                 (Some 400) (Some 400) cover in
      400 <= Dimensions.width d /\ 400 <= Dimensions.height d
      /\ Dimensions.shouldCrop d = true
      /\ d = Dimensions.mk 500 400 true)
  /\ (forall fit,
        calculateDimensions (num := Q) 1000 800 (Some 400) (Some 400) fit
        = calculateDimensions (num := PrimFloat.float) 1000 800 (Some 400)
                              (Some 400) fit).
Proof.
  split; [vm_compute; reflexivity|]. split; [vm_compute; reflexivity|].
  split.
  - vm_compute. repeat split; discriminate.
  - intros []; vm_compute; reflexivity.
Qed.

(** C5 (amended).  With fit=cover, natural and target dimensions
    between 1 and 2^26, and number arithmetic as accurate as binary64,
    the resized raster is at least the target box on both axes, and for every crop
    position the offsets computed by [applyCrop] are not negative and the
    crop region lies within the raster. *)
Theorem cover_crop_within_raster {num : Type} {N : JsNumber num}
    {L : JsNumberLaws num} (ow oh tw th : Z) :
  dimension ow -> dimension oh -> dimension tw -> dimension th ->
  let d := calculateDimensions ow oh (Some tw) (Some th) cover in
  tw <= Dimensions.width d
  /\ th <= Dimensions.height d
  /\ Dimensions.shouldCrop d = true
  /\ forall position : CropPosition,
       let '(x, y) := cropOffsets (Dimensions.width d) (Dimensions.height d)
                        tw th position in
       0 <= x /\ 0 <= y
       /\ x + tw <= Dimensions.width d /\ y + th <= Dimensions.height d.
Proof.
  intros Dow Doh Dtw Dth d.
  destruct (cover_covers ow oh tw th Dow Doh Dtw Dth) as (W & H & C).
  fold d in W, H, C. unfold dimension in Dtw, Dth.
  repeat split; try lia; try exact C.
  intros position. apply cropOffsets_within; lia.
Qed.

Lemma cover_crop_within_raster_witness :
  let d := calculateDimensions (num := Q) 1000 800 (Some 400) (Some 400)
             cover in
  400 <= Dimensions.width d
  /\ 400 <= Dimensions.height d
  /\ Dimensions.shouldCrop d = true
  /\ forall position : CropPosition,
       let '(x, y) := cropOffsets (num := Q) (Dimensions.width d)
                        (Dimensions.height d) 400 400 position in
       0 <= x /\ 0 <= y
       /\ x + 400 <= Dimensions.width d /\ y + 400 <= Dimensions.height d.
Proof.
  apply (cover_crop_within_raster (num := Q) 1000 800 400 400);
    unfold dimension; lia.
Defined.

(** C5 as stated fails: in the arithmetic of the engine, beyond 2^51,
    the two roundings of the cover branch lose a pixel.  A source of 1 by
    3 for a target of 3000000000000000 by 9000000000000001 is resized to
    a height of 9000000000000000, below the target, and the crop anchored
    at the bottom starts at -1. *)
Lemma cover_falls_short_beyond_2_51 :
  let tw := 3000000000000000 in
  let th := 9000000000000001 in
  let d := calculateDimensions (num := PrimFloat.float) 1 3 (Some tw)
             (Some th) cover in
  Dimensions.height d = 9000000000000000
  /\ ~ th <= Dimensions.height d
  /\ snd (cropOffsets (num := PrimFloat.float) (Dimensions.width d)
                      (Dimensions.height d) tw th bottom) = -1.
Proof. vm_compute. repeat split. intros H. apply H. reflexivity. Qed.

(** Binary64 itself, checked by evaluation: on all natural and target
    dimensions from 1 to 10 and on dimensions at the ends of the range,
    the cover property holds in the arithmetic of the engine. *)
Lemma binary64_cover_checked :
  forallb (fun ow => forallb (fun oh => forallb (fun tw => forallb (fun th =>
    coverCropWithin (num := PrimFloat.float) ow oh tw th)
    smallDimensions) smallDimensions) smallDimensions) smallDimensions = true
  /\ forallb (fun '(ow, oh, tw, th) =>
                coverCropWithin (num := PrimFloat.float) ow oh tw th)
             awkwardDimensions = true.
Proof. split; vm_compute; reflexivity. Qed.

(** ** The signature gate *)

(** C8.  Without a signing secret [checkSignature] passes every request.
    With a (non-empty) secret and no token, or an empty one,
    verification fails, [checkSignature] rejects, and the handler answers
    403 without validating or fetching anything. *)
Theorem checkSignature_fails_closed `{WebPlatform} `{Storage}
    {Image : Type} `{Codec Image} :
  (forall ps : URLSearchParams, checkSignature ps None = Ok tt)
  /\ (forall (ps : URLSearchParams) (secret : string),
        secret <> "" -> Str.truthy (get "token" ps) = false ->
        verifySignature ps secret = false
        /\ checkSignature ps (Some secret)
           = Throw "Invalid or missing signature")
  /\ (forall (env : Environment) (req : Request) (secret : string),
        method req = "GET" ->
        IMAGE_CDN_SIGNING_SECRET env = Some secret -> secret <> "" ->
        Str.truthy (get "token" (searchParams req)) = false ->
        serve env req
        = (ErrorResponses.forbidden "Invalid or missing signature",
           [console_error
              "Signature verification failed: Invalid or missing signature"])).
Proof.
  assert (V : forall ps secret, Str.truthy (get "token" ps) = false ->
                                verifySignature ps secret = false).
  { intros ps secret T. unfold verifySignature.
    destruct (get "token" ps) as [[|c t]|]; [reflexivity|discriminate|reflexivity]. }
  assert (C : forall ps secret, secret <> "" ->
                Str.truthy (get "token" ps) = false ->
                checkSignature ps (Some secret)
                = Throw "Invalid or missing signature").
  { intros ps secret Ns T. unfold checkSignature.
    destruct secret as [|c s]; [congruence|]. now rewrite V. }
  split; [reflexivity|]. split; [intros; split; auto|].
  intros env req secret M S Ns T.
  unfold serve, handleRequest. rewrite M, S, (C _ _ Ns T). reflexivity.
Qed.

Lemma checkSignature_fails_closed_witness :
  checkSignature (H := fakePlatform) [("path", "a.jpg"); ("w", "400")]
                 (Some "s3cret")
  = Throw "Invalid or missing signature".
Proof.
  destruct (checkSignature_fails_closed (H := fakePlatform)
              (H0 := failingCacheStorage) (H1 := fakeCodec)) as (_ & G & _).
  apply G; [discriminate | reflexivity].
Defined.

(** ** The miss path *)

#[local] Arguments buildCacheKey : simpl never.
#[local] Arguments inferFormatFromPath : simpl never.

(** The handler never lets an error escape: it ends by returning a
    response. *)
Lemma handleRequest_catches_all `{WebPlatform} `{Storage} {Image : Type}
    `{Codec Image} (env : Environment) (req : Request) (log : list LogLine) :
  forall message log', handleRequest env req log <> (Thrown message, log').
Proof.
  intros message log'. unfold handleRequest, tryCatch.
  match goal with
  | |- context [match ?body log with _ => _ end] =>
      destruct (body log) as [[r|r|m] l]
  end; discriminate.
Qed.

(** C9.  On the miss path, once the origin is fetched and the transform
    has succeeded, the response is the 200 image response carrying
    exactly the transformed bytes, whatever the upload to the cache does;
    a failed upload leaves an error line in the log and nothing else. *)
Theorem cache_write_failure_is_not_fatal `{WebPlatform} `{Storage}
    {Image : Type} `{Codec Image} (env : Environment) (req : Request)
    (config : TransformConfig) (originBytes transformedData : list byte)
    (outputFormat : ImageFormat) :
  method req = "GET" ->
  checkSignature (searchParams req) (IMAGE_CDN_SIGNING_SECRET env) = Ok tt ->
  parseQueryParams (searchParams req) (limits env) = Ok config ->
  noCache config = true
  \/ cacheHit (download (CACHE_BUCKET env) (buildCacheKey config)) = false ->
  download (bucket config) (path config)
  = Ok (mkDownload (Some originBytes) None) ->
  transformImage (num := PrimFloat.float) originBytes config
                 (inferFormatFromPath (path config))
  = Ok (transformedData, outputFormat) ->
  let written :=
    upload (CACHE_BUCKET env) (buildCacheKey config) transformedData
           (mkUpload true ("image/" ++ ImageFormat_toString outputFormat)
                     "31536000") in
  let '(response, log) := serve env req in
  response = imageResponse transformedData outputFormat noOptions
  /\ status response = 200
  /\ body response = ImageBody transformedData
  /\ (forall e, written = Throw e ->
        In (console_error ("Cache upload error: " ++ e)) log)
  /\ (forall e, written = Ok (Some e) ->
        In (console_error ("Failed to upload to cache: " ++ e)) log)
  /\ last log (console_log "") = console_log "Request completed (processed)".
Proof.
  intros M S P Miss O T written.
  unfold serve, handleRequest. rewrite M, S, P, String.eqb_refl.
  assert (Lk : forall log, exists log',
             cacheLookup env config (buildCacheKey config) log
             = (Normal tt, log')).
  { intros log. unfold cacheLookup.
    destruct Miss as [Nc|Nh].
    - rewrite Nc. unfold logLine. cbn [negb]. eauto.
    - unfold logLine, tryCatch, andThen, await, pure.
      destruct (noCache config); cbn [negb]; [eauto|].
      destruct (download (CACHE_BUCKET env) (buildCacheKey config))
        as [[[d|] [e|]]|m]; cbn [error data];
        try discriminate Nh; eauto. }
  cbv beta iota zeta delta [tryCatch andThen await logLine pure returnWith
                            negb app].
  match goal with
  | |- context [cacheLookup env config ?k ?l] =>
      destruct (Lk l) as [log' E]; rewrite E
  end.
  rewrite O. cbv beta iota delta [error data]. rewrite T.
  unfold cacheWrite.
  cbv beta iota zeta delta [tryCatch andThen await logLine logError].
  fold written.
  destruct written as [[e|]|e] eqn:W;
    (split; [reflexivity|]); (split; [reflexivity|]);
    (split; [reflexivity|]);
    (split; [intros e' E'; inversion E'; subst;
             rewrite ?in_app_iff; simpl; tauto|]);
    (split; [intros e' E'; inversion E'; subst;
             rewrite ?in_app_iff; simpl; tauto|]);
    rewrite ?last_last; reflexivity.
Qed.

Lemma cache_write_failure_is_not_fatal_witness :
  let '(response, log) :=
    serve (H := fakePlatform) (H0 := failingCacheStorage) (H1 := fakeCodec)
          testEnvironment testRequest in
  response = imageResponse [x4a; x50] jpeg noOptions
  /\ status response = 200
  /\ body response = ImageBody [x4a; x50]
  /\ In (console_error "Cache upload error: storage unavailable") log.
Proof.
  pose proof (cache_write_failure_is_not_fatal
                (H := fakePlatform) (H0 := failingCacheStorage)
                (H1 := fakeCodec) testEnvironment testRequest
                (mkConfig "images" "test.jpg" (Some 400) None cover None 80
                          None center false)
                [x01; x02; x03] [x4a; x50] jpeg
                eq_refl eq_refl eq_refl (or_intror eq_refl) eq_refl eq_refl)
    as G.
  cbv zeta in G.
  destruct (serve (H := fakePlatform) (H0 := failingCacheStorage)
                  (H1 := fakeCodec) testEnvironment testRequest)
    as [response log].
  destruct G as (R & S & B & F & _).
  repeat split; auto. apply (F "storage unavailable"). reflexivity.
Defined.

(* ================================================================== *)
(** * Further properties of the code *)
(* ================================================================== *)

(** ** Reading numbers back *)

(** The value of a decimal numeral read after [acc]. *)
Lemma parseDigits_string_of_uint (d : Decimal.uint) (acc : Z) :
  parseDigits acc (NilEmpty.string_of_uint d) = uintValue acc d.
Proof.
  revert acc. induction d; intros acc; simpl; auto.
Qed.

Lemma of_uint_acc_value (d : Decimal.uint) (acc : positive) :
  Zpos (Pos.of_uint_acc d acc) = uintValue (Zpos acc) d.
Proof.
  revert acc. induction d; intros acc; cbn [Pos.of_uint_acc uintValue];
    auto; rewrite IHd; f_equal; lia.
Qed.

Lemma of_uint_value (d : Decimal.uint) :
  Z.of_N (Pos.of_uint d) = uintValue 0 d.
Proof.
  induction d; cbn [Pos.of_uint uintValue Z.of_N]; auto;
    rewrite of_uint_acc_value; reflexivity.
Qed.

Lemma uintValue_to_uint (p : positive) : uintValue 0 (Pos.to_uint p) = Zpos p.
Proof.
  rewrite <- of_uint_value, DecimalPos.Unsigned.of_to. reflexivity.
Qed.

Lemma string_of_uint_nonnil (d : Decimal.uint) :
  d <> Decimal.Nil -> startsWithDigit (NilEmpty.string_of_uint d) = true.
Proof. destruct d; intros H; [congruence | reflexivity ..]. Qed.

Lemma parseInt_positive (p : positive) :
  Zpos p <= 9007199254740992 ->
  parseInt (NilEmpty.string_of_uint (Pos.to_uint p)) = Some (Zpos p)
  /\ parseInt (String "-" (NilEmpty.string_of_uint (Pos.to_uint p)))
     = Some (Zneg p).
Proof.
  intros B.
  pose proof (DecimalPos.Unsigned.to_uint_nonnil p) as N.
  pose proof (string_of_uint_nonnil _ N) as S.
  pose proof (string_of_uint_digits (Pos.to_uint p)) as D.
  split.
  - pose proof (parseInt_unsigned _ "" S D eq_refl) as H.
    rewrite append_nil_r in H. rewrite H.
    rewrite parseDigits_string_of_uint, uintValue_to_uint.
    now rewrite toNumber_safe by (simpl; lia).
  - unfold parseInt, Str.trimStart. cbn [Str.dropWhile].
    change (Str.isWhiteSpace "-") with false. cbv beta iota.
    rewrite Ascii.eqb_refl, S.
    rewrite parseDigits_string_of_uint, uintValue_to_uint.
    now rewrite toNumber_safe by (simpl; lia).
Qed.

Lemma decimal_nonempty (z : Z) : decimal z <> "".
Proof.
  unfold decimal. destruct z as [|p|p]; simpl; try discriminate.
  unfold NilZero.string_of_uint.
  pose proof (DecimalPos.Unsigned.to_uint_nonnil p).
  destruct (Pos.to_uint p); simpl; congruence.
Qed.

(** Beyond 2^53 the rendering keeps the fewest digits that read back,
    exponent notation starts at 10^21, and [parseInt] rounds what it
    reads and stops at the point of an exponent notation. *)
Lemma Number_toString_beyond_safe :
  Number_toString (2 ^ 60) = "1152921504606847000"
  /\ Number_toString (10 ^ 21) = "1e+21"
  /\ Number_toString (2 ^ 70) = "1.1805916207174113e+21"
  /\ parseInt "1e+21" = Some 1
  /\ parseInt "9007199254740993" = Some 9007199254740992.
Proof. repeat split; vm_compute; reflexivity. Qed.

(** X1.  For an integer of magnitude at most 2^53, reading back the
    rendering gives the integer: [parseInt(String(z), 10)] is [z],
    negative or not; so an integer parameter written in decimal and
    within its range is accepted as itself. *)
Theorem parseInt_Number_toString (z lo hi : Z) :
  Z.abs z <= 9007199254740992 ->
  parseInt (Number_toString z) = Some z
  /\ (lo <= z <= hi ->
      parseIntParam (Some (Number_toString z)) lo hi = Ok (Some z)).
Proof.
  intros B. rewrite (Number_toString_safe z B).
  assert (P : parseInt (decimal z) = Some z).
  { unfold decimal. destruct z as [|p|p]; [reflexivity| |].
    - simpl. unfold NilZero.string_of_uint.
      pose proof (DecimalPos.Unsigned.to_uint_nonnil p) as N.
      destruct (parseInt_positive p) as [H _]; [simpl in B; lia|].
      destruct (Pos.to_uint p); try congruence; exact H.
    - simpl. unfold NilZero.string_of_uint.
      pose proof (DecimalPos.Unsigned.to_uint_nonnil p) as N.
      destruct (parseInt_positive p) as [_ H]; [simpl in B; lia|].
      destruct (Pos.to_uint p); try congruence; exact H. }
  split; [exact P|]. intros R.
  unfold parseIntParam.
  destruct (decimal z) as [|c s] eqn:E;
    [exfalso; eapply decimal_nonempty; eauto|].
  rewrite P.
  replace (z <? lo) with false by (symmetry; apply Z.ltb_ge; lia).
  replace (z >? hi) with false
    by (symmetry; rewrite Z.gtb_ltb; apply Z.ltb_ge; lia).
  reflexivity.
Qed.

Lemma parseInt_Number_toString_witness :
  parseIntParam (Some (Number_toString 1999)) 1 2000 = Ok (Some 1999).
Proof.
  apply (parseInt_Number_toString 1999 1 2000); simpl; lia.
Defined.


(** ** The validator, parameter by parameter *)

(** X2.  The three enumerated parameters are matched exactly and case
    sensitively: the name of a value parses to that value, and a
    non-empty raw value that parses is the name of the value parsed. *)
Theorem enum_parameters_exact :
  (forall f, parseFitMode (Some (FitMode_toString f)) = Ok f)
  /\ (forall f, parseFormat (Some (ImageFormat_toString f)) = Ok (Some f))
  /\ (forall c, parseCropPosition (Some (CropPosition_toString c)) = Ok c)
  /\ (forall v f, v <> "" -> parseFitMode (Some v) = Ok f ->
                  v = FitMode_toString f)
  /\ (forall v f, parseFormat (Some v) = Ok (Some f) ->
                  v = ImageFormat_toString f)
  /\ (forall v c, v <> "" -> parseCropPosition (Some v) = Ok c ->
                  v = CropPosition_toString c).
Proof.
  split; [intros []; reflexivity|]. split; [intros []; reflexivity|].
  split; [intros []; reflexivity|].
  split; [|split].
  - intros v f Nv. unfold parseFitMode. destruct v as [|c v]; [congruence|].
    repeat match goal with
           | |- context [String.eqb ?a ?b] =>
               destruct (String.eqb_spec a b) as [->|?]
           end; intros H; inversion H; reflexivity.
  - intros v f. unfold parseFormat. destruct v as [|c v]; [discriminate|].
    repeat match goal with
           | |- context [String.eqb ?a ?b] =>
               destruct (String.eqb_spec a b) as [->|?]
           end; intros H; inversion H; reflexivity.
  - intros v c Nv. unfold parseCropPosition.
    destruct v as [|c0 v]; [congruence|].
    repeat match goal with
           | |- context [String.eqb ?a ?b] =>
               destruct (String.eqb_spec a b) as [->|?]
           end; intros H; inversion H; reflexivity.
Qed.

Lemma enum_parameters_exact_witness :
  "contain" = FitMode_toString contain.
Proof.
  destruct enum_parameters_exact as (_ & _ & _ & G & _).
  apply G; [discriminate | reflexivity].
Defined.

(** *** Background colours *)

Lemma isHexDigit_plain c :
  Str.isHexDigit c = true ->
  Str.isWhiteSpace c = false /\ Ascii.eqb c "-" = false
  /\ Ascii.eqb c "+" = false /\ Ascii.eqb c "x" = false
  /\ Ascii.eqb c "X" = false /\ 0 <= hexDigitValue c <= 15.
Proof.
  destruct c as [[] [] [] [] [] [] [] []]; vm_compute;
    intuition congruence.
Qed.

Lemma parseHexDigits_bound (s : string) (acc : Z) :
  0 <= acc -> Str.forallb Str.isHexDigit s = true ->
  0 <= parseHexDigits acc s
  /\ parseHexDigits acc s < (acc + 1) * 16 ^ Z.of_nat (String.length s).
Proof.
  revert acc. induction s as [|c s IH]; intros acc Ha Hs.
  - simpl. lia.
  - cbn [Str.forallb] in Hs. apply andb_true_iff in Hs as [Hc Hs].
    cbn [parseHexDigits String.length]. rewrite Hc.
    destruct (isHexDigit_plain c Hc) as (_ & _ & _ & _ & _ & V).
    destruct (IH (16 * acc + hexDigitValue c)) as [L U]; [lia | exact Hs |].
    split; [exact L|].
    rewrite Nat2Z.inj_succ, Z.pow_succ_r by lia. nia.
Qed.

(** X3.  A background that the validator accepts is returned unchanged,
    has six characters, and always reads as a colour: [parseHexColor]
    gives a number (never NaN) between 0 and 0xffffff. *)
Theorem validated_background_is_a_colour (v b : string) :
  parseBackground (Some v) = Ok (Some b) ->
  b = v /\ String.length b = 6%nat
  /\ exists n, parseHexColor b = Some n /\ 0 <= n <= 16777215.
Proof.
  unfold parseBackground. destruct v as [|c v]; [discriminate|].
  destruct (isHexColor (String c v)) eqn:E; [|discriminate].
  intros H. inversion H; subst b. split; [reflexivity|].
  pose proof (isHexColor_length _ E) as L. split; [exact L|].
  unfold isHexColor in E. apply andb_true_iff in E as [_ D].
  pose proof D as D'. cbn [Str.forallb] in D'.
  apply andb_true_iff in D' as [Hc Hv].
  destruct (isHexDigit_plain c Hc) as (W & M & P & _ & _ & _).
  exists (parseHexDigits 0 (String c v)).
  destruct (parseHexDigits_bound (String c v) 0) as [Lo Hi]; [lia|exact D|].
  rewrite L in Hi. split; [|change (16 ^ Z.of_nat 6) with 16777216 in Hi; lia].
  unfold parseHexColor, Str.trimStart. cbn [Str.dropWhile]. rewrite W.
  cbv beta iota. rewrite M, P.
  assert (S3 : match String c v with
               | String c0 (String c1 r) =>
                   if Ascii.eqb c0 "0"
                      && (Ascii.eqb c1 "x" || Ascii.eqb c1 "X")
                   then r else String c v
               | _ => String c v
               end = String c v).
  { destruct v as [|c1 r]; [reflexivity|].
    cbn [Str.forallb] in Hv. apply andb_true_iff in Hv as [Hc1 _].
    destruct (isHexDigit_plain c1 Hc1) as (_ & _ & _ & X1 & X2 & _).
    now rewrite X1, X2, andb_false_r. }
  change (16 ^ Z.of_nat 6) with 16777216 in Hi.
  rewrite S3, Hc. f_equal.
  rewrite toNumber_safe by lia. lia.
Qed.

Lemma validated_background_is_a_colour_witness :
  exists n, parseHexColor "Ff00aB" = Some n /\ 0 <= n <= 16777215.
Proof.
  apply (validated_background_is_a_colour "Ff00aB" "Ff00aB"). reflexivity.
Defined.

(** *** Sanitised paths *)

Lemma dropWhileEnd_cons f c s :
  Str.dropWhileEnd f (String c s)
  = match Str.dropWhileEnd f s with
    | EmptyString => if f c then EmptyString else String c EmptyString
    | r => String c r
    end.
Proof. reflexivity. Qed.

Lemma dropWhileEnd_idempotent f s :
  Str.dropWhileEnd f (Str.dropWhileEnd f s) = Str.dropWhileEnd f s.
Proof.
  induction s as [|c s IH]; [reflexivity|]. rewrite dropWhileEnd_cons.
  destruct (Str.dropWhileEnd f s) as [|d r] eqn:E.
  - destruct (f c) eqn:Fc; [reflexivity|].
    rewrite dropWhileEnd_cons. cbn [Str.dropWhileEnd]. now rewrite Fc.
  - rewrite dropWhileEnd_cons, IH. reflexivity.
Qed.

Lemma dropWhile_fixed f s :
  match s with String c _ => f c = false | EmptyString => True end ->
  Str.dropWhile f s = s.
Proof. destruct s as [|c s]; simpl; [auto | intros ->; reflexivity]. Qed.

Lemma stripSlashes_idempotent s : stripSlashes (stripSlashes s) = stripSlashes s.
Proof.
  unfold stripSlashes at 1.
  rewrite (dropWhile_fixed isSlash (stripSlashes s)).
  - unfold stripSlashes. apply dropWhileEnd_idempotent.
  - unfold stripSlashes.
    destruct (Str.dropWhileEnd isSlash (Str.dropWhile isSlash s))
      as [|c r] eqn:E; [exact I|].
    apply dropWhileEnd_head in E as [r' E]. now apply dropWhile_head in E.
Qed.

Lemma includes_no_traversal s :
  Str.includes s ".." = false -> hasTraversalSegment s = false.
Proof.
  intros H. destruct (hasTraversalSegment s) eqn:E; [|reflexivity].
  apply traversal_segment_includes in E. congruence.
Qed.

(** X4.  Whatever [sanitizePath] returns is not empty, contains no [..]
    (so no [..] segment), and has neither a leading nor a trailing
    slash: stripping slashes again changes nothing. *)
Theorem sanitizePath_result (p s : string) :
  sanitizePath p = Ok s ->
  s <> ""
  /\ Str.includes s ".." = false
  /\ hasTraversalSegment s = false
  /\ stripSlashes s = s
  /\ s = stripSlashes (Str.trim p).
Proof.
  unfold sanitizePath.
  destruct (Str.includes _ ".." || Str.startsWith _ "/") eqn:E;
    [discriminate|].
  apply orb_false_iff in E as [E1 E2].
  destruct (stripSlashes (Str.trim p)) as [|c r] eqn:Es;
    [simpl; discriminate|].
  cbn [Str.truthy negb]. intros H. inversion H; subst s.
  split; [discriminate|]. split; [exact E1|].
  split; [now apply includes_no_traversal|].
  split; [|reflexivity]. rewrite <- Es. apply stripSlashes_idempotent.
Qed.

Lemma sanitizePath_result_witness :
  stripSlashes "img/cat.png" = "img/cat.png".
Proof.
  apply (sanitizePath_result " //img/cat.png/ " "img/cat.png"). reflexivity.
Defined.

(** *** The whole validator *)

Lemma parseQueryParams_valid_witness :
  validConfig (mkLimits 2000 2000 80 "images")
    (mkConfig "images" "a.jpg" (Some 640) None contain (Some png) 80
              (Some "ffffff") top true) = true.
Proof.
  apply (parseQueryParams_valid
           [("path", "/a.jpg"); ("w", "640"); ("fit", "contain");
            ("format", "png"); ("bg", "ffffff"); ("crop", "top");
            ("no_cache", "1")] (mkLimits 2000 2000 80 "images"));
    [discriminate | simpl; lia | reflexivity].
Defined.

(** X6.  A request that carries a path and none of the optional
    parameters is given every default: the configured bucket and
    quality, no dimension, cover, the source format, no background, a
    centred crop, and the cache in use. *)
Theorem path_only_request_defaults (ps : URLSearchParams)
    (limits : ValidationLimits) (p s : string) :
  get "path" ps = Some p -> p <> "" -> sanitizePath p = Ok s ->
  (forall name, In name ("no_cache" :: optionalParams) -> get name ps = None) ->
  parseQueryParams ps limits
  = Ok (mkConfig (defaultBucket limits) s None None cover None
                 (defaultQuality limits) None center false).
Proof.
  intros Hp Np Hs Hn. unfold parseQueryParams.
  rewrite Hp. destruct p as [|c p]; [congruence|]. rewrite Hs.
  rewrite !Hn by (simpl; tauto). reflexivity.
Qed.

Lemma path_only_request_defaults_witness :
  parseQueryParams [("path", "products/shoe.jpg")]
                   (mkLimits 2000 2000 75 "images")
  = Ok (mkConfig "images" "products/shoe.jpg" None None cover None 75 None
                 center false).
Proof.
  apply (path_only_request_defaults _ (mkLimits 2000 2000 75 "images")
           "products/shoe.jpg");
    [reflexivity | discriminate | reflexivity |].
  intros name Hin. simpl in Hin.
  repeat (destruct Hin as [<-|Hin]; [reflexivity|]). contradiction.
Defined.


(** ** Paths, extensions and keys *)

Lemma noDot_app_dot a e :
  Str.forallb (fun d => negb (isDot d)) (a ++ "." ++ e) = false.
Proof.
  induction a as [|c a IH]; [reflexivity|].
  change (String c a ++ "." ++ e) with (String c (a ++ "." ++ e)).
  cbn [Str.forallb]. rewrite IH. apply andb_false_r.
Qed.

Lemma append_dot_nonempty a e : String.eqb (a ++ "." ++ e) "" = false.
Proof. destruct a; reflexivity. Qed.

Lemma stripExtension_cons c rest :
  stripExtension (String c rest)
  = if isDot c && negb (String.eqb rest "")
       && Str.forallb (fun d => negb (isDot d)) rest
    then EmptyString else String c (stripExtension rest).
Proof. reflexivity. Qed.

Lemma stripExtension_extension a e :
  e <> "" -> noDot e = true -> stripExtension (a ++ "." ++ e) = a.
Proof.
  intros Ne De. induction a as [|c a IH].
  - change ("" ++ "." ++ e) with (String "." e). rewrite stripExtension_cons.
    unfold noDot in De. rewrite De.
    destruct e; [congruence | reflexivity].
  - change (String c a ++ "." ++ e) with (String c (a ++ "." ++ e)).
    rewrite stripExtension_cons, noDot_app_dot, andb_false_r, IH.
    reflexivity.
Qed.

Lemma stripExtension_noDot p : noDot p = true -> stripExtension p = p.
Proof.
  unfold noDot. induction p as [|c p IH]; [reflexivity|].
  cbn [Str.forallb]. intros H. apply andb_true_iff in H as [Hc Hp].
  rewrite stripExtension_cons. apply negb_true_iff in Hc. rewrite Hc.
  cbn [andb]. now rewrite IH.
Qed.

Lemma stripExtension_trailing_dot a : stripExtension (a ++ ".") = a ++ ".".
Proof.
  induction a as [|c a IH]; [reflexivity|].
  change (String c a ++ ".") with (String c (a ++ ".")).
  rewrite stripExtension_cons, IH.
  replace (Str.forallb (fun d => negb (isDot d)) (a ++ ".")) with false
    by (symmetry; apply (noDot_app_dot a "")).
  now rewrite andb_false_r.
Qed.

(** X7.  [stripExtension] removes exactly the part from the last dot on,
    provided something follows that dot; a path without a dot, or one
    that ends in a dot, is left as it is. *)
Theorem stripExtension_cuts_last_extension (a e p : string) :
  (e <> "" -> noDot e = true -> stripExtension (a ++ "." ++ e) = a)
  /\ (noDot p = true -> stripExtension p = p)
  /\ stripExtension (a ++ ".") = a ++ ".".
Proof.
  split; [apply stripExtension_extension|].
  split; [apply stripExtension_noDot | apply stripExtension_trailing_dot].
Qed.

Lemma stripExtension_cuts_last_extension_witness :
  stripExtension ("archive.tar" ++ "." ++ "gz") = "archive.tar".
Proof.
  apply (stripExtension_cuts_last_extension "archive.tar" "gz" "");
    [discriminate | reflexivity].
Defined.

Lemma split_noDot e : noDot e = true -> Str.split "." e = [e].
Proof.
  unfold noDot. induction e as [|c e IH]; [reflexivity|].
  cbn [Str.forallb Str.split]. intros H. apply andb_true_iff in H as [Hc He].
  apply negb_true_iff in Hc. unfold isDot in Hc. rewrite Hc, IH by exact He.
  reflexivity.
Qed.

Lemma split_extension a e :
  noDot e = true ->
  exists l, l <> [] /\ Str.split "." (a ++ "." ++ e) = (l ++ [e])%list.
Proof.
  intros De. induction a as [|c a (l & Nl & IH)].
  - exists [""]. split; [discriminate|].
    change ("" ++ "." ++ e) with (String "." e). cbn [Str.split].
    rewrite Ascii.eqb_refl, split_noDot by exact De. reflexivity.
  - change (String c a ++ "." ++ e) with (String c (a ++ "." ++ e)).
    cbn [Str.split]. rewrite IH.
    destruct (Ascii.eqb c "."); [exists ("" :: l); split; [discriminate|reflexivity]|].
    destruct l as [|h t]; [congruence|].
    exists (String c h :: t). split; [discriminate|reflexivity].
Qed.

Lemma inferFormatFromPath_extension a e :
  noDot e = true ->
  inferFormatFromPath (a ++ "." ++ e) = formatOfExtension e.
Proof.
  intros De. unfold inferFormatFromPath, formatOfExtension.
  destruct (split_extension a e De) as (l & _ & ->). rewrite last_last.
  repeat match goal with
         | |- context [String.eqb ?x ?y] =>
             destruct (String.eqb_spec x y) as [E|?]; try rewrite E in *
         end; try reflexivity; discriminate.
Qed.

Lemma inferFormatFromPath_noDot p :
  noDot p = true -> inferFormatFromPath p = formatOfExtension p.
Proof.
  intros Dp. unfold inferFormatFromPath, formatOfExtension.
  rewrite split_noDot by exact Dp. cbn [last].
  repeat match goal with
         | |- context [String.eqb ?x ?y] =>
             destruct (String.eqb_spec x y) as [E|?]; try rewrite E in *
         end; try reflexivity; discriminate.
Qed.

(** X8.  The format inferred from a path depends on nothing but what
    follows its last dot (the whole path when it has no dot), read
    without regard to case: [png] gives png, anything else jpeg. *)
Theorem inferFormatFromPath_last_extension (a e : string) :
  noDot e = true ->
  inferFormatFromPath (a ++ "." ++ e)
  = (if String.eqb (Str.toLowerCase e) "png" then png else jpeg)
  /\ inferFormatFromPath e
     = (if String.eqb (Str.toLowerCase e) "png" then png else jpeg).
Proof.
  intros De. split;
    [apply inferFormatFromPath_extension | apply inferFormatFromPath_noDot];
    exact De.
Qed.

Lemma inferFormatFromPath_last_extension_witness :
  inferFormatFromPath ("shots/v1.2/Logo" ++ "." ++ "PnG") = png.
Proof.
  apply (inferFormatFromPath_last_extension "shots/v1.2/Logo" "PnG").
  reflexivity.
Defined.

Lemma getExtension_noDot f :
  noDot (getExtensionFromFormat f) = true
  /\ getExtensionFromFormat f <> ""
  /\ formatOfExtension (getExtensionFromFormat f) = f.
Proof. destruct f; repeat split; discriminate. Qed.

(** X9.  A cache key reads back: the format inferred from the key is
    the output format of the configuration, and stripping the key's
    extension gives the joined components. *)
Theorem cacheKey_extension_round_trip (c : TransformConfig) :
  inferFormatFromPath (buildCacheKey c)
  = orFormat c.(format) (inferFormatFromPath c.(path))
  /\ stripExtension (buildCacheKey c) = Str.join "__" (cacheKeyParts c).
Proof.
  unfold buildCacheKey.
  destruct (getExtension_noDot
              (orFormat (format c) (inferFormatFromPath (path c))))
    as (D & N & F).
  split.
  - rewrite inferFormatFromPath_extension by exact D. exact F.
  - apply stripExtension_extension; assumption.
Qed.

(** X10.  The key does not see the bucket or the cache switch: requests
    that differ only in [bucket] and [no_cache] are looked up and stored
    under one key, although they read different origins. *)
Theorem cacheKey_ignores_bucket (ps : URLSearchParams)
    (limits : ValidationLimits) (b1 b2 n1 n2 : string)
    (c1 c2 : TransformConfig) :
  parseQueryParams (("bucket", b1) :: ("no_cache", n1) :: ps) limits = Ok c1 ->
  parseQueryParams (("bucket", b2) :: ("no_cache", n2) :: ps) limits = Ok c2 ->
  buildCacheKey c1 = buildCacheKey c2
  /\ (b1 <> "" -> bucket c1 = b1) /\ (b2 <> "" -> bucket c2 = b2).
Proof.
  unfold parseQueryParams. cbn [get].
  change (String.eqb "bucket" "bucket") with true.
  change (String.eqb "bucket" "path") with false.
  change (String.eqb "no_cache" "path") with false.
  change (String.eqb "bucket" "w") with false.
  change (String.eqb "no_cache" "w") with false.
  change (String.eqb "bucket" "h") with false.
  change (String.eqb "no_cache" "h") with false.
  change (String.eqb "bucket" "fit") with false.
  change (String.eqb "no_cache" "fit") with false.
  change (String.eqb "bucket" "format") with false.
  change (String.eqb "no_cache" "format") with false.
  change (String.eqb "bucket" "q") with false.
  change (String.eqb "no_cache" "q") with false.
  change (String.eqb "bucket" "bg") with false.
  change (String.eqb "no_cache" "bg") with false.
  change (String.eqb "bucket" "crop") with false.
  change (String.eqb "no_cache" "crop") with false.
  change (String.eqb "bucket" "no_cache") with false.
  change (String.eqb "no_cache" "no_cache") with true.
  cbv iota.
  destruct (get "path" ps) as [[|c0 raw]|]; try discriminate.
  intros H1 H2.
  apply bind_Ok in H1 as (p & Hp & H1). rewrite Hp in H2. cbn [bind] in H2.
  apply bind_Ok in H1 as (w & Hw & H1). rewrite Hw in H2. cbn [bind] in H2.
  apply bind_Ok in H1 as (h & Hh & H1). rewrite Hh in H2. cbn [bind] in H2.
  apply bind_Ok in H1 as (f & Hf & H1). rewrite Hf in H2. cbn [bind] in H2.
  apply bind_Ok in H1 as (m & Hm & H1). rewrite Hm in H2. cbn [bind] in H2.
  apply bind_Ok in H1 as (q & Hq & H1). rewrite Hq in H2. cbn [bind] in H2.
  apply bind_Ok in H1 as (g & Hg & H1). rewrite Hg in H2. cbn [bind] in H2.
  apply bind_Ok in H1 as (cr & Hc & H1). rewrite Hc in H2. cbn [bind] in H2.
  inversion H1; inversion H2; subst. clear.
  split; [reflexivity|].
  split; intros N; cbn [bucket];
    [destruct b1 | destruct b2]; solve [congruence | reflexivity].
Qed.

Lemma cacheKey_ignores_bucket_witness :
  buildCacheKey
    (mkConfig "public" "a.jpg" (Some 400) None cover None 80 None center true)
  = buildCacheKey
      (mkConfig "private" "a.jpg" (Some 400) None cover None 80 None center
                false).
Proof.
  apply (cacheKey_ignores_bucket [("path", "a.jpg"); ("w", "400")]
           (mkLimits 2000 2000 80 "images") "public" "private" "1" "0");
    reflexivity.
Defined.

(** X11.  The key sees a path only through what precedes its last dot
    and through the inferred format: two sources whose paths differ
    after the last dot, with the same inferred format, share every key. *)
Theorem cacheKey_merges_paths (c : TransformConfig) (a e1 e2 : string) :
  e1 <> "" -> e2 <> "" -> noDot e1 = true -> noDot e2 = true ->
  inferFormatFromPath (a ++ "." ++ e1) = inferFormatFromPath (a ++ "." ++ e2) ->
  buildCacheKey (withPath c (a ++ "." ++ e1))
  = buildCacheKey (withPath c (a ++ "." ++ e2)).
Proof.
  intros N1 N2 D1 D2 E.
  unfold buildCacheKey, cacheKeyParts, withPath.
  cbn [path width height fit format quality background crop].
  rewrite !stripExtension_extension by assumption.
  rewrite E. reflexivity.
Qed.

Lemma cacheKey_merges_paths_witness :
  buildCacheKey
    (mkConfig "images" "photos.2024/cat" (Some 400) None cover None 80 None
              center false)
  = buildCacheKey
      (mkConfig "images" "photos.2024/dog" (Some 400) None cover None 80 None
                center false).
Proof.
  apply (cacheKey_merges_paths
           (mkConfig "images" "" (Some 400) None cover None 80 None center
                     false)
           "photos" "2024/cat" "2024/dog");
    first [discriminate | reflexivity].
Defined.


(** ** Geometry of contain and of a single dimension *)

Section MoreGeometry.
Context {num : Type} {N : JsNumber num} {L : JsNumberLaws num}.

Local Open Scope Q_scope.

Lemma Math_round_nonneg (x : num) : 0 <= value x -> (0 <= Math_round x)%Z.
Proof.
  intros H. apply Math_round_ge. change (inject_Z 0) with 0. lra.
Qed.

(** In contain mode the resized raster fits within the target box and
    touches it on one axis. *)
Lemma contain_fits (ow oh tw th : Z) :
  dimension ow -> dimension oh -> dimension tw -> dimension th ->
  let d := calculateDimensions ow oh (Some tw) (Some th) contain in
  (0 <= Dimensions.width d <= tw)%Z
  /\ (0 <= Dimensions.height d <= th)%Z
  /\ (Dimensions.width d = tw \/ Dimensions.height d = th)
  /\ Dimensions.shouldCrop d = false.
Proof.
  intros Dow Doh Dtw Dth.
  assert (Tw : truthyNum (Some tw) = true)
    by (unfold dimension in Dtw; simpl; apply negb_true_iff, Z.eqb_neq; lia).
  assert (Th : truthyNum (Some th) = true)
    by (unfold dimension in Dth; simpl; apply negb_true_iff, Z.eqb_neq; lia).
  unfold calculateDimensions. rewrite Tw, Th. cbn [negb andb numberOf].
  destruct (ratio_bounds ow oh Dow Doh) as (A1 & A2 & A3 & A4 & Fa).
  destruct (ratio_bounds tw th Dtw Dth) as (T1 & T2 & _ & _ & Ft).
  pose proof (ratio_moderate ow oh Dow Doh) as Ma.
  destruct (value_dimension tw Dtw) as (Etw & [TW1 TW2] & Mtw & Ftw).
  destruct (value_dimension th Dth) as (Eth & [TH1 TH2] & Mth & Fth).
  set (a := div (ofZ ow) (ofZ oh)) in *.
  set (t := div (ofZ tw) (ofZ th)) in *.
  unfold unitRoundoff in *. unfold dimension in Dtw, Dth.
  assert (Pa : 0 < value a) by lra.
  destruct (gt a t) eqn:G; cbn [Dimensions.width Dimensions.height
                                 Dimensions.shouldCrop].
  - (* wider than the box: the width is fitted *)
    apply (gt_value _ _ Fa Ft) in G.
    destruct (div_accurate (ofZ tw) a Ftw Fa Mtw Ma) as (_ & V1 & V2);
      [lra|].
    rewrite Etw in V1, V2. unfold unitRoundoff in *.
    set (v := value (div (ofZ tw) a)) in *.
    assert (Pv : 0 <= v).
    { destruct (Qlt_le_dec v 0) as [C|C]; [exfalso|exact C].
      assert (P : 0 <= (0 - v) * value a)
        by (apply Qmult_le_0_compat; lra).
      lra. }
    repeat split; try lia; auto.
    + apply Math_round_nonneg. exact Pv.
    + apply Math_round_le. fold v.
      destruct (Qlt_le_dec v (inject_Z th + (1 # 2))) as [C|C];
        [lra|exfalso].
      (* v * t <= v * a <= (1+u) tw, and t * th >= (1-u) tw *)
      assert (P1 : 0 <= v * (value a - value t))
        by (apply Qmult_le_0_compat; lra).
      assert (P2 : 0 <= (v - (inject_Z th + (1 # 2))) * value t).
      { apply Qmult_le_0_compat; [lra|].
        destruct (Qlt_le_dec (value t) 0) as [C'|C']; [exfalso|exact C'].
        assert (P : 0 <= (0 - value t) * inject_Z th)
          by (apply Qmult_le_0_compat; lra).
        lra. }
      assert (T : (1 # 2) * value t
                  <= (2 # 9007199254740992) * inject_Z tw) by lra.
      assert (P3 : 0 <= ((4 # 9007199254740992) * inject_Z tw - value t)
                        * inject_Z th)
        by (apply Qmult_le_0_compat; lra).
      assert (P4 : 0 <= inject_Z tw * ((67108864 # 1) - inject_Z th))
        by (apply Qmult_le_0_compat; lra).
      lra.
  - (* not wider: the height is fitted *)
    assert (G' : value a <= value t).
    { apply Qnot_lt_le. intros C. apply (gt_value _ _ Fa Ft) in C.
      congruence. }
    destruct (mul_accurate (ofZ th) a Fth Fa Mth Ma) as (_ & M1 & M2).
    rewrite Eth in M1, M2. unfold unitRoundoff in *.
    set (m := value (mul (ofZ th) a)) in *.
    assert (P0 : 0 <= inject_Z th * value a)
      by (apply Qmult_le_0_compat; lra).
    repeat split; try lia; auto.
    + apply Math_round_nonneg. fold m. lra.
    + apply Math_round_le. fold m.
      assert (P : 0 <= (value t - value a) * inject_Z th)
        by (apply Qmult_le_0_compat; lra).
      lra.
Qed.
End MoreGeometry.


Section ScaledDimension.
Context {num : Type} {N : JsNumber num} {L : JsNumberLaws num}.

Local Open Scope Q_scope.

(** A target [g] scaled by the ratio [x / y] and rounded is within half
    a unit of [y], and one unit of rounding, of the exact [g * x / y]. *)
Lemma scaled_dimension (g x y : Z) :
  dimension g -> dimension x -> dimension y ->
  let r := Math_round (mul (ofZ g) (div (ofZ x) (ofZ y))) in
  (2 * Z.abs (r * y - g * x) <= y + 2)%Z.
Proof.
  intros Dg Dx Dy r.
  destruct (ratio_bounds x y Dx Dy) as (A1 & A2 & A3 & A4 & Fa).
  pose proof (ratio_moderate x y Dx Dy) as Ma.
  destruct (value_dimension g Dg) as (Eg & [G1 G2] & Mg & Fg).
  destruct (value_dimension x Dx) as (_ & [X1 X2] & _).
  destruct (value_dimension y Dy) as (_ & [Y1 Y2] & _).
  destruct (mul_accurate (ofZ g) (div (ofZ x) (ofZ y)) Fg Fa Mg Ma)
    as (_ & M1 & M2).
  rewrite Eg in M1, M2.
  set (a := value (div (ofZ x) (ofZ y))) in *.
  set (m := value (mul (ofZ g) (div (ofZ x) (ofZ y)))) in *.
  pose proof (Qfloor_le (m + (1 # 2))) as F1.
  pose proof (Qlt_floor (m + (1 # 2))) as F2.
  change (Qfloor (m + (1 # 2))) with r in F1, F2.
  rewrite inject_Z_plus in F2. change (inject_Z 1) with 1 in F2.
  unfold unitRoundoff in *.
  set (R := inject_Z r) in *. set (G := inject_Z g) in *.
  set (X := inject_Z x) in *. set (Y := inject_Z y) in *.
  assert (Pa : 0 <= a) by lra.
  assert (Pga : 0 <= G * a) by (apply Qmult_le_0_compat; lra).
  assert (PGX : 0 <= G * ((67108864 # 1) - X))
    by (apply Qmult_le_0_compat; lra).
  (* upper side *)
  assert (U1 : 0 <= (m + (1 # 2) - R) * Y)
    by (apply Qmult_le_0_compat; lra).
  assert (U2 : 0 <= ((1 + (1 # 9007199254740992)) * (G * a) - m) * Y)
    by (apply Qmult_le_0_compat; lra).
  assert (U3 : 0 <= G * ((1 + (1 # 9007199254740992)) * X - a * Y))
    by (apply Qmult_le_0_compat; lra).
  (* lower side *)
  assert (L1 : 0 <= (R + 1 - (m + (1 # 2))) * Y)
    by (apply Qmult_le_0_compat; lra).
  assert (L2 : 0 <= (m - (1 - (1 # 9007199254740992)) * (G * a)) * Y)
    by (apply Qmult_le_0_compat; lra).
  assert (L3 : 0 <= G * (a * Y - (1 - (1 # 9007199254740992)) * X))
    by (apply Qmult_le_0_compat; lra).
  assert (Up : 2 * (R * Y - G * X) < Y + 3) by lra.
  assert (Lo : 2 * (G * X - R * Y) < Y + 3) by lra.
  assert (UpZ : (2 * (r * y - g * x) < y + 3)%Z).
  { rewrite Zlt_Qlt.
    rewrite inject_Z_plus, inject_Z_mult, <- Z.add_opp_r, inject_Z_plus,
      inject_Z_opp, !inject_Z_mult.
    fold R G X Y. change (inject_Z 2) with 2. change (inject_Z 3) with 3.
    lra. }
  assert (LoZ : (2 * (g * x - r * y) < y + 3)%Z).
  { rewrite Zlt_Qlt.
    rewrite inject_Z_plus, inject_Z_mult, <- Z.add_opp_r, inject_Z_plus,
      inject_Z_opp, !inject_Z_mult.
    fold R G X Y. change (inject_Z 2) with 2. change (inject_Z 3) with 3.
    lra. }
  lia.
Qed.
End ScaledDimension.


(** X12.  In contain mode, for dimensions between 1 and 2^26 and number
    arithmetic as accurate as binary64, the resolved raster fits within
    the target box, reaches it on one axis, and no crop is requested. *)
Theorem contain_fits_within_box {num : Type} {N : JsNumber num}
    {L : JsNumberLaws num} (ow oh tw th : Z) :
  dimension ow -> dimension oh -> dimension tw -> dimension th ->
  let d := calculateDimensions ow oh (Some tw) (Some th) contain in
  0 <= Dimensions.width d <= tw
  /\ 0 <= Dimensions.height d <= th
  /\ (Dimensions.width d = tw \/ Dimensions.height d = th)
  /\ Dimensions.shouldCrop d = false.
Proof. intros. now apply contain_fits. Qed.

Lemma contain_fits_within_box_witness :
  let d := calculateDimensions (num := Q) 800 1000 (Some 400) (Some 400)
             contain in
  0 <= Dimensions.width d <= 400
  /\ 0 <= Dimensions.height d <= 400
  /\ (Dimensions.width d = 400 \/ Dimensions.height d = 400)
  /\ Dimensions.shouldCrop d = false.
Proof.
  apply (contain_fits_within_box (num := Q) 800 1000 400 400);
    unfold dimension; lia.
Defined.

(** X13.  With one target dimension only, that dimension is taken as it
    is, no crop is requested, and the other is the natural one scaled by
    the same factor, to within half a pixel and one unit of rounding:
    twice the cross difference is at most the natural dimension plus 2.
    The fit mode plays no part. *)
Theorem single_dimension_keeps_aspect {num : Type} {N : JsNumber num}
    {L : JsNumberLaws num} (ow oh g : Z) (fit : FitMode) :
  dimension ow -> dimension oh -> dimension g ->
  (let d := calculateDimensions ow oh (Some g) None fit in
   Dimensions.width d = g
   /\ 2 * Z.abs (Dimensions.height d * ow - g * oh) <= ow + 2
   /\ Dimensions.shouldCrop d = false)
  /\ (let d := calculateDimensions ow oh None (Some g) fit in
      Dimensions.height d = g
      /\ 2 * Z.abs (Dimensions.width d * oh - g * ow) <= oh + 2
      /\ Dimensions.shouldCrop d = false).
Proof.
  intros Dow Doh Dg.
  assert (T : truthyNum (Some g) = true)
    by (unfold dimension in Dg; simpl; apply negb_true_iff, Z.eqb_neq; lia).
  unfold calculateDimensions. rewrite T.
  cbn [truthyNum negb andb numberOf Dimensions.width Dimensions.height
       Dimensions.shouldCrop].
  split; (split; [reflexivity|]); (split; [|reflexivity]);
    now apply scaled_dimension.
Qed.

Lemma single_dimension_keeps_aspect_witness :
  let d := calculateDimensions (num := Q) 1000 800 (Some 333) None cover in
  Dimensions.width d = 333
  /\ 2 * Z.abs (Dimensions.height d * 1000 - 333 * 800) <= 1000 + 2
  /\ Dimensions.shouldCrop d = false.
Proof.
  destruct (single_dimension_keeps_aspect (num := Q) 1000 800 333 cover)
    as [G _]; try (unfold dimension; lia).
  exact G.
Defined.

(** ** The transform *)

(** The test codecs obey the laws of the codec. *)
Lemma fakeCodec_laws : CodecLaws (H := fakeCodec) (Z * Z).
Proof.
  split; cbn [resize crop_ newImage fill_ composite imageWidth imageHeight
              fakeCodec]; intros.
  - replace (w <? 1) with false by (symmetry; apply Z.ltb_ge; lia).
    replace (h <? 1) with false by (symmetry; apply Z.ltb_ge; lia). eauto.
  - destruct (w <? 1) eqn:W; [eauto|].
    replace (h <? 1) with true by (symmetry; apply Z.ltb_lt;
                                   apply Z.ltb_ge in W; lia). eauto.
  - eexists. split; [reflexivity|]. cbn [fst snd]. lia.
  - replace (w <? 1) with false by (symmetry; apply Z.ltb_ge; lia).
    replace (h <? 1) with false by (symmetry; apply Z.ltb_ge; lia). eauto.
  - auto.
  - auto.
Qed.

Lemma flatCodec_laws : CodecLaws (H := flatCodec) (Z * Z).
Proof.
  destruct fakeCodec_laws as [R Z C N F M].
  split; [exact R | exact Z | exact C | exact N | auto | auto].
Qed.

Section TransformLaws.
Context {num : Type} {N : JsNumber num} {L : JsNumberLaws num}.
Context {Image : Type} {C : Codec Image} {CL : CodecLaws Image}.

(** The resize step succeeds when the resolved dimensions are at least
    1, and the raster then has the resolved dimensions. *)
Lemma resized_dimensions (image : Image) (d : Dimensions.t) :
  1 <= Dimensions.width d -> 1 <= Dimensions.height d ->
  exists image',
    (if negb (Dimensions.width d =? imageWidth image)
        || negb (Dimensions.height d =? imageHeight image)
     then resize image (Dimensions.width d) (Dimensions.height d)
     else Ok image) = Ok image'
    /\ imageWidth image' = Dimensions.width d
    /\ imageHeight image' = Dimensions.height d.
Proof.
  intros W H.
  destruct (Dimensions.width d =? imageWidth image) eqn:Ew;
    destruct (Dimensions.height d =? imageHeight image) eqn:Eh;
    cbn [negb orb]; try (apply resize_dimensions; assumption).
  apply Z.eqb_eq in Ew, Eh. eauto.
Qed.

(** The resize step throws when a resolved dimension is 0 and the
    raster has none. *)
Lemma resized_to_nothing (image : Image) (d : Dimensions.t) :
  1 <= imageWidth image -> 1 <= imageHeight image ->
  0 <= Dimensions.width d -> 0 <= Dimensions.height d ->
  Dimensions.width d = 0 \/ Dimensions.height d = 0 ->
  exists e,
    resize image (Dimensions.width d) (Dimensions.height d) = Throw e
    /\ (if negb (Dimensions.width d =? imageWidth image)
           || negb (Dimensions.height d =? imageHeight image)
        then resize image (Dimensions.width d) (Dimensions.height d)
        else Ok image) = Throw e.
Proof.
  intros Iw Ih W H Z.
  destruct (resize_range image _ _ W H Z) as [e E]. exists e.
  split; [exact E|].
  replace (negb (Dimensions.width d =? imageWidth image)
           || negb (Dimensions.height d =? imageHeight image)) with true;
    [exact E|].
  symmetry. apply orb_true_iff.
  destruct Z as [Z|Z]; [left|right]; apply negb_true_iff, Z.eqb_neq; lia.
Qed.

(** After [applyCrop] on a raster that covers the target box, the raster
    is the target box. *)
Lemma applyCrop_dimensions (image : Image) (tw th : Z)
    (position : CropPosition) :
  tw <= imageWidth image <= 9007199254740992 ->
  th <= imageHeight image <= 9007199254740992 ->
  1 <= tw -> 1 <= th ->
  exists image',
    applyCrop image tw th position = Ok image'
    /\ imageWidth image' = tw /\ imageHeight image' = th.
Proof.
  intros W H Tw Th. unfold applyCrop.
  destruct ((imageWidth image =? tw) && (imageHeight image =? th)) eqn:E.
  - apply andb_true_iff in E as [E1 E2]. apply Z.eqb_eq in E1, E2. eauto.
  - pose proof (cropOffsets_within (imageWidth image) (imageHeight image)
                  tw th position W H ltac:(lia) ltac:(lia)) as B.
    destruct (cropOffsets (imageWidth image) (imageHeight image) tw th
                          position) as [x y].
    apply crop_dimensions; lia.
Qed.

(** A background is laid under a raster at the raster's own
    dimensions. *)
Lemma applyBackground_dimensions (image : Image) (bg : option string) :
  1 <= imageWidth image -> 1 <= imageHeight image ->
  exists image',
    applyBackground image bg = Ok image'
    /\ imageWidth image' = imageWidth image
    /\ imageHeight image' = imageHeight image.
Proof.
  intros W H. unfold applyBackground. destruct bg as [[|c b]|]; eauto.
  destruct (newImage_dimensions _ _ W H) as (blank & -> & Bw & Bh).
  cbn [bind]. eexists. split; [reflexivity|].
  destruct (composite_dimensions (fill_ blank (parseHexColor (String c b)))
                                 image) as [-> ->].
  destruct (fill_dimensions blank (parseHexColor (String c b))) as [-> ->].
  auto.
Qed.

(** Without a crop, when the resolved dimensions are at least 1, the
    raster that is encoded has the resolved dimensions. *)
Lemma transformImage_uncropped (imageData : list byte)
    (config : TransformConfig) (originalFormat : ImageFormat)
    (image : Image) :
  decode imageData = Ok image ->
  let d := calculateDimensions (imageWidth image) (imageHeight image)
             config.(width) config.(height) config.(fit) in
  Dimensions.shouldCrop d = false ->
  1 <= Dimensions.width d -> 1 <= Dimensions.height d ->
  exists raster,
    transformImage imageData config originalFormat
    = encodeAs raster config originalFormat
    /\ imageWidth raster = Dimensions.width d
    /\ imageHeight raster = Dimensions.height d.
Proof.
  intros D d S W H.
  unfold transformImage, decodeImage. rewrite D. cbn [bind]. fold d.
  destruct (resized_dimensions image d W H) as (image1 & -> & W1 & H1).
  cbn [bind]. rewrite S. cbn [andb bind].
  destruct ((FitMode_eqb (fit config) contain
             || FitMode_eqb (fit config) fill)
            && Str.truthy (background config)).
  - destruct (applyBackground_dimensions image1 (background config))
      as (image2 & -> & W2 & H2); [lia | lia |].
    cbn [bind]. exists image2. split; [reflexivity|]. lia.
  - cbn [bind]. exists image1. split; [reflexivity|]. lia.
Qed.

(** When a resolved dimension is 0 the transform throws what [resize]
    throws. *)
Lemma transformImage_nothing (imageData : list byte)
    (config : TransformConfig) (originalFormat : ImageFormat)
    (image : Image) :
  decode imageData = Ok image ->
  1 <= imageWidth image -> 1 <= imageHeight image ->
  let d := calculateDimensions (imageWidth image) (imageHeight image)
             config.(width) config.(height) config.(fit) in
  0 <= Dimensions.width d -> 0 <= Dimensions.height d ->
  Dimensions.width d = 0 \/ Dimensions.height d = 0 ->
  exists e,
    resize image (Dimensions.width d) (Dimensions.height d) = Throw e
    /\ transformImage imageData config originalFormat = Throw e.
Proof.
  intros D Iw Ih d W H Z.
  destruct (resized_to_nothing image d Iw Ih W H Z) as (e & E & R).
  exists e. split; [exact E|].
  unfold transformImage, decodeImage. rewrite D. cbn [bind]. fold d.
  rewrite R. reflexivity.
Qed.
End TransformLaws.

(** X14.  With fit=cover and both target dimensions, on a source whose
    natural dimensions lie between 1 and 2^26, the raster that is
    encoded is exactly the target box, whatever the crop position and
    the background (a background is not applied in cover mode). *)
Theorem cover_output_is_target_box {num : Type} {N : JsNumber num}
    {L : JsNumberLaws num} {Image : Type} {C : Codec Image}
    {CL : CodecLaws Image} (imageData : list byte) (config : TransformConfig)
    (originalFormat : ImageFormat) (image : Image) (tw th : Z) :
  decode imageData = Ok image ->
  dimension (imageWidth image) -> dimension (imageHeight image) ->
  fit config = cover -> width config = Some tw -> height config = Some th ->
  dimension tw -> dimension th ->
  exists raster,
    imageWidth raster = tw /\ imageHeight raster = th
    /\ transformImage imageData config originalFormat
       = encodeAs raster config originalFormat.
Proof.
  intros D Dw Dh Ef Ew Eh Dtw Dth.
  destruct (cover_covers (imageWidth image) (imageHeight image) tw th
              Dw Dh Dtw Dth) as (W & H & S).
  cbv zeta in W, H, S.
  assert (Tw : truthyNum (Some tw) = true)
    by (unfold dimension in Dtw; simpl; apply negb_true_iff, Z.eqb_neq; lia).
  assert (Th : truthyNum (Some th) = true)
    by (unfold dimension in Dth; simpl; apply negb_true_iff, Z.eqb_neq; lia).
  unfold dimension in Dtw, Dth.
  unfold transformImage, decodeImage. rewrite D, Ef, Ew, Eh. cbn [bind].
  set (d := calculateDimensions (imageWidth image) (imageHeight image)
              (Some tw) (Some th) cover) in *.
  destruct (resized_dimensions image d) as (image1 & -> & W1 & H1);
    [lia | lia |].
  cbn [bind]. rewrite S, Tw, Th. cbn [andb numberOf].
  destruct (applyCrop_dimensions (num := num) image1 tw th (crop config))
    as (image2 & -> & W2 & H2); try lia.
  cbn [bind FitMode_eqb orb andb].
  exists image2. split; [exact W2|]. split; [exact H2|].
  unfold encodeAs. reflexivity.
Qed.

Lemma cover_output_is_target_box_witness :
  exists raster : Z * Z,
    fst raster = 400 /\ snd raster = 300
    /\ transformImage (num := Q) (H0 := fakeCodec) [x01]
         (mkConfig "images" "a.jpg" (Some 400) (Some 300) cover None 80 None
                   top false) jpeg
       = encodeAs (H := fakeCodec) raster
           (mkConfig "images" "a.jpg" (Some 400) (Some 300) cover None 80 None
                     top false) jpeg.
Proof.
  apply (cover_output_is_target_box (num := Q) (C := fakeCodec)
           (CL := fakeCodec_laws) [x01]
           _ jpeg (1000, 800) 400 300);
    try reflexivity; unfold dimension; simpl; lia.
Defined.

(** X15.  With both target dimensions and dimensions between 1 and 2^26,
    for number arithmetic as accurate as binary64 and a codec that gives
    the dimensions asked for: fit=fill encodes a raster of exactly the
    target box; fit=contain encodes a raster that fits within the box
    and reaches it on one axis when both resolved dimensions are at
    least 1, and when one of them rounds to 0 the transform throws what
    [resize] throws.  A background is laid under the raster at the
    raster's own dimensions: it does not extend a contained raster to
    the box. *)
Theorem fill_contain_output_dimensions {num : Type} {N : JsNumber num}
    {L : JsNumberLaws num} {Image : Type} {C : Codec Image}
    {CL : CodecLaws Image} (imageData : list byte) (config : TransformConfig)
    (originalFormat : ImageFormat) (image : Image) (tw th : Z) :
  decode imageData = Ok image ->
  dimension (imageWidth image) -> dimension (imageHeight image) ->
  width config = Some tw -> height config = Some th ->
  dimension tw -> dimension th ->
  let d := calculateDimensions (imageWidth image) (imageHeight image)
             (Some tw) (Some th) contain in
  (fit config = fill ->
   exists raster,
     transformImage imageData config originalFormat
     = encodeAs raster config originalFormat
     /\ imageWidth raster = tw /\ imageHeight raster = th)
  /\ (fit config = contain ->
      1 <= Dimensions.width d -> 1 <= Dimensions.height d ->
      exists raster,
        transformImage imageData config originalFormat
        = encodeAs raster config originalFormat
        /\ 1 <= imageWidth raster <= tw /\ 1 <= imageHeight raster <= th
        /\ (imageWidth raster = tw \/ imageHeight raster = th))
  /\ (fit config = contain ->
      Dimensions.width d < 1 \/ Dimensions.height d < 1 ->
      exists e,
        resize image (Dimensions.width d) (Dimensions.height d) = Throw e
        /\ transformImage imageData config originalFormat = Throw e).
Proof.
  intros D Dw Dh Ew Eh Dtw Dth d.
  assert (Tw : truthyNum (Some tw) = true)
    by (unfold dimension in Dtw; simpl; apply negb_true_iff, Z.eqb_neq; lia).
  assert (Th : truthyNum (Some th) = true)
    by (unfold dimension in Dth; simpl; apply negb_true_iff, Z.eqb_neq; lia).
  destruct (contain_fits (imageWidth image) (imageHeight image) tw th
              Dw Dh Dtw Dth) as (A & B & O & S).
  cbv zeta in A, B, O, S. fold d in A, B, O, S.
  unfold dimension in Dw, Dh, Dtw, Dth.
  split; [|split].
  - intros F.
    destruct (transformImage_uncropped (num := num) imageData config
                originalFormat image D) as (raster & T & Rw & Rh);
      rewrite ?Ew, ?Eh, ?F; unfold calculateDimensions;
      rewrite ?Tw, ?Th; cbn [negb andb numberOf Dimensions.width
                             Dimensions.height Dimensions.shouldCrop];
      try reflexivity; try lia.
    exists raster. split; [exact T|].
    rewrite Ew, Eh, F in Rw, Rh. unfold calculateDimensions in Rw, Rh.
    rewrite Tw, Th in Rw, Rh. cbn in Rw, Rh. auto.
  - intros F W H.
    destruct (transformImage_uncropped (num := num) imageData config
                originalFormat image D) as (raster & T & Rw & Rh);
      rewrite ?Ew, ?Eh, ?F; fold d; try assumption.
    exists raster. split; [exact T|].
    rewrite Ew, Eh, F in Rw, Rh. fold d in Rw, Rh. lia.
  - intros F Z.
    destruct (transformImage_nothing (num := num) imageData config
                originalFormat image D) as (e & E & T);
      rewrite ?Ew, ?Eh, ?F; fold d; try lia.
    exists e. rewrite Ew, Eh, F in E. fold d in E. auto.
Qed.

Lemma fill_contain_output_dimensions_witness :
  (exists raster : Z * Z,
     transformImage (num := Q) (H0 := fakeCodec) [x01]
       (mkConfig "images" "a.png" (Some 400) (Some 400) contain None 80
                 (Some "ffffff") center false) png
     = encodeAs (H := fakeCodec) raster
         (mkConfig "images" "a.png" (Some 400) (Some 400) contain None 80
                   (Some "ffffff") center false) png
     /\ 1 <= fst raster <= 400 /\ 1 <= snd raster <= 400
     /\ (fst raster = 400 \/ snd raster = 400))
  /\ transformImage (num := Q) (H0 := flatCodec) [x01]
       (mkConfig "images" "a.png" (Some 400) (Some 400) contain None 80
                 None center false) png
     = Throw "Image has to be at least 1 pixel high".
Proof.
  split.
  - destruct (fill_contain_output_dimensions (num := Q) (C := fakeCodec)
                (CL := fakeCodec_laws) [x01]
                (mkConfig "images" "a.png" (Some 400) (Some 400) contain None
                          80 (Some "ffffff") center false)
                png (1000, 800) 400 400)
      as (_ & G & _);
      [first [reflexivity | unfold dimension; simpl; lia] .. |].
    apply G; [reflexivity | vm_compute; discriminate
             | vm_compute; discriminate].
  - destruct (fill_contain_output_dimensions (num := Q) (C := flatCodec)
                (CL := flatCodec_laws) [x01]
                (mkConfig "images" "a.png" (Some 400) (Some 400) contain None
                          80 None center false)
                png (2000, 1) 400 400)
      as (_ & _ & G);
      [first [reflexivity | unfold dimension; simpl; lia] .. |].
    destruct G as (e & E & T); [reflexivity | right; reflexivity |].
    rewrite T. vm_compute in E. congruence.
Defined.

Lemma encodeImage_throws {Image : Type} {C : Codec Image} (i : Image)
    (f : ImageFormat) (q : Z) (m : string) :
  encodeImage i f q = Throw m ->
  exists e, m = "Failed to encode image: " ++ e.
Proof.
  unfold encodeImage.
  destruct f; [destruct (encodeJPEG i q) | destruct (encodePNG i)];
    intros H; inversion H; subst; eexists; reflexivity.
Qed.

Lemma applyCrop_throws {num : Type} {N : JsNumber num} {Image : Type}
    {C : Codec Image} (image : Image) (tw th : Z) (position : CropPosition)
    (m : string) :
  applyCrop image tw th position = Throw m ->
  exists x y, crop_ image x y tw th = Throw m.
Proof.
  unfold applyCrop.
  destruct ((imageWidth image =? tw) && (imageHeight image =? th));
    [discriminate|].
  destruct (cropOffsets _ _ _ _ _) as [x y]. eauto.
Qed.

Lemma applyBackground_throws {Image : Type} {C : Codec Image}
    (image : Image) (bg : option string) (m : string) :
  applyBackground image bg = Throw m ->
  newImage (imageWidth image) (imageHeight image) = Throw m.
Proof.
  unfold applyBackground. destruct bg as [[|c b]|]; try discriminate.
  destruct (newImage _ _); cbn [bind]; [discriminate | auto].
Qed.

(** A failure of the transform is a failure of one of its steps: of
    decoding or encoding, under the prefix of the step, or of [resize],
    [crop] or [new Image], as the library throws it. *)
Lemma transformImage_throws {num : Type} {N : JsNumber num}
    {Image : Type} {C : Codec Image} (imageData : list byte)
    (config : TransformConfig) (originalFormat : ImageFormat)
    (message : string) :
  transformImage imageData config originalFormat = Throw message ->
  (exists e, decode imageData = Throw e
             /\ message = "Failed to decode image: " ++ e)
  \/ (exists e, message = "Failed to encode image: " ++ e)
  \/ (exists image w h, resize image w h = Throw message)
  \/ (exists image x y w h, crop_ image x y w h = Throw message)
  \/ (exists w h, newImage w h = Throw message).
Proof.
  unfold transformImage, decodeImage.
  destruct (decode imageData) as [image|e]; cbn [bind];
    [|intros H; inversion H; left; eauto].
  match goal with
  | |- context [bind ?r _] => destruct r as [image1|e] eqn:R1
  end; cbn [bind].
  2:{ intros H; inversion H; subst. right; right; left.
      match type of R1 with
      | (if ?b then _ else _) = _ => destruct b; [eauto | discriminate]
      end. }
  match goal with
  | |- context [bind ?r _] => destruct r as [image2|e] eqn:R2
  end; cbn [bind].
  2:{ intros H; inversion H; subst. right; right; right; left.
      match type of R2 with
      | (if ?b then _ else _) = _ => destruct b; [|discriminate]
      end.
      destruct (applyCrop_throws _ _ _ _ _ R2) as (x & y & E). eauto 6. }
  match goal with
  | |- context [bind ?r _] => destruct r as [image3|e] eqn:R3
  end; cbn [bind].
  2:{ intros H; inversion H; subst. right; right; right; right.
      match type of R3 with
      | (if ?b then _ else _) = _ => destruct b; [|discriminate]
      end.
      apply applyBackground_throws in R3. eauto. }
  match goal with
  | |- context [bind ?r _] => destruct r as [data|e] eqn:R4
  end; cbn [bind]; [discriminate|].
  intros H; inversion H; subst. right; left.
  eapply encodeImage_throws; eassumption.
Qed.

Lemma transformImage_returns {num : Type} {N : JsNumber num}
    {Image : Type} {C : Codec Image} (imageData : list byte)
    (config : TransformConfig) (originalFormat : ImageFormat)
    (bytes : list byte) (f : ImageFormat) :
  transformImage imageData config originalFormat = Ok (bytes, f) ->
  f = orFormat (format config) originalFormat
  /\ exists image, decode imageData = Ok image.
Proof.
  unfold transformImage, decodeImage.
  destruct (decode imageData) as [image|e]; cbn [bind]; [|discriminate].
  do 4 (match goal with
        | |- context [bind ?r _] => destruct r
        end; cbn [bind]; [|discriminate]).
  intros H; inversion H; split; [reflexivity | eauto].
Qed.

(** X16.  [transformImage] either returns bytes together with the
    explicit format of the configuration, the source format when none is
    given, or fails.  A decode failure (whatever the configuration) and
    an encode failure carry a message that names the step; an error
    thrown by [resize], [crop] or [new Image] is passed on as it is. *)
Theorem transformImage_outcomes {num : Type} {N : JsNumber num}
    {Image : Type} {C : Codec Image} (imageData : list byte)
    (config : TransformConfig) (originalFormat : ImageFormat) :
  (forall bytes f,
     transformImage imageData config originalFormat = Ok (bytes, f) ->
     f = orFormat (format config) originalFormat
     /\ exists image, decode imageData = Ok image)
  /\ (forall e, decode imageData = Throw e ->
        transformImage imageData config originalFormat
        = Throw ("Failed to decode image: " ++ e))
  /\ (forall message,
        transformImage imageData config originalFormat = Throw message ->
        (exists e, decode imageData = Throw e
                   /\ message = "Failed to decode image: " ++ e)
        \/ (exists e, message = "Failed to encode image: " ++ e)
        \/ (exists image w h, resize image w h = Throw message)
        \/ (exists image x y w h, crop_ image x y w h = Throw message)
        \/ (exists w h, newImage w h = Throw message)).
Proof.
  split; [intros bytes f; apply transformImage_returns|].
  split; [|intros message; apply transformImage_throws].
  intros e D. unfold transformImage, decodeImage. now rewrite D.
Qed.

Lemma transformImage_outcomes_witness :
  transformImage (num := Q) (H0 := brokenCodec) [x00]
    (mkConfig "images" "a.jpg" None None cover None 80 None center false)
    jpeg
  = Throw "Failed to decode image: bad magic".
Proof.
  destruct (transformImage_outcomes (num := Q) (C := brokenCodec) [x00]
              (mkConfig "images" "a.jpg" None None cover None 80 None center
                        false) jpeg)
    as (_ & G & _).
  apply G. reflexivity.
Defined.


(** ** Signatures *)

Lemma get_app_absent name (ps1 ps2 : URLSearchParams) :
  get name ps1 = None -> get name (ps1 ++ ps2)%list = get name ps2.
Proof.
  induction ps1 as [|[k v] ps1 IH]; [reflexivity|]. simpl.
  destruct (String.eqb k name); [discriminate | exact IH].
Qed.

Lemma delete_absent name (ps : URLSearchParams) :
  get name ps = None -> delete name ps = ps.
Proof.
  unfold delete. induction ps as [|[k v] ps IH]; [reflexivity|].
  simpl. destruct (String.eqb k name); [discriminate|].
  intros H. simpl. now rewrite IH.
Qed.

Lemma delete_app name (ps1 ps2 : URLSearchParams) :
  delete name (ps1 ++ ps2)%list = (delete name ps1 ++ delete name ps2)%list.
Proof. unfold delete. apply filter_app. Qed.

(** X17.  A token computed over the parameters as they are sent, and
    inserted anywhere among them, verifies, and [checkSignature] lets
    the request pass; conversely a request verifies only if its first
    token is the signature of its other parameters. *)
Theorem signature_round_trip `{WebPlatform} (ps1 ps2 : URLSearchParams)
    (secret : string) :
  let token :=
    generateSignature (URLSearchParams_toString (ps1 ++ ps2)%list) secret in
  (get "token" ps1 = None -> get "token" ps2 = None -> token <> "" ->
   verifySignature (ps1 ++ ("token", token) :: ps2)%list secret = true
   /\ checkSignature (ps1 ++ ("token", token) :: ps2)%list (Some secret)
      = Ok tt)
  /\ (forall ps, verifySignature ps secret = true ->
        get "token" ps
        = Some (generateSignature
                  (URLSearchParams_toString (delete "token" ps)) secret)).
Proof.
  intros token. split.
  - intros A1 A2 Nt.
    assert (V : verifySignature (ps1 ++ ("token", token) :: ps2)%list secret
                = true).
    { unfold verifySignature. rewrite get_app_absent by exact A1.
      simpl get. rewrite ?String.eqb_refl.
      assert (D : delete "token" (ps1 ++ ("token", token) :: ps2)%list
                  = (ps1 ++ ps2)%list).
      { rewrite delete_app, (delete_absent _ _ A1).
        unfold delete at 1. simpl. rewrite ?String.eqb_refl. simpl.
        fold (delete "token" ps2). now rewrite (delete_absent _ _ A2). }
      rewrite D. fold token.
      destruct token as [|c t] eqn:Et; [congruence|]. rewrite <- Et.
      subst token. rewrite Et. apply String.eqb_refl. }
    split; [exact V|]. unfold checkSignature.
    destruct secret; [reflexivity|]. now rewrite V.
  - intros ps. unfold verifySignature.
    destruct (get "token" ps) as [[|c t]|]; try discriminate.
    intros E. apply String.eqb_eq in E. now rewrite E.
Qed.

Lemma signature_round_trip_witness :
  checkSignature (H := fakePlatform)
    [("path", "a.jpg"); ("token", "k:path=a.jpg&w=400"); ("w", "400")]
    (Some "k")
  = Ok tt.
Proof.
  apply (signature_round_trip (H := fakePlatform) [("path", "a.jpg")]
           [("w", "400")] "k");
    [reflexivity | reflexivity | discriminate].
Defined.


(** ** The handler, path by path *)

Section HandlerPaths.
Context {P : WebPlatform} {S : Storage} {Image : Type} {C : Codec Image}.
Variable env : Environment.

Lemma cacheLookup_miss (config : TransformConfig) (log : list LogLine) :
  cacheMiss env config ->
  cacheLookup env config (buildCacheKey config) log
  = (Normal tt, (log ++ lookupLines env config)%list).
Proof.
  unfold cacheMiss, cacheLookup, lookupLines.
  unfold logLine, tryCatch, andThen, await, pure.
  intros [Nc|Nh].
  - rewrite Nc. reflexivity.
  - destruct (noCache config); [reflexivity|]. cbn [negb].
    destruct (download (CACHE_BUCKET env) (buildCacheKey config))
      as [[[d|] [e|]]|m]; cbn [error data]; try discriminate Nh;
      rewrite ?app_nil_r; reflexivity.
Qed.

Lemma cacheLookup_hit (config : TransformConfig) (log : list LogLine)
    (cached : list byte) :
  noCache config = false ->
  download (CACHE_BUCKET env) (buildCacheKey config)
  = Ok (mkDownload (Some cached) None) ->
  cacheLookup env config (buildCacheKey config) log
  = (Return (imageResponse cached
               (orFormat (format config) (inferFormatFromPath (path config)))
               noOptions),
     ((log ++ [console_log "Cache HIT - returning cached image"])
      ++ [console_log "Request completed (cached)"])%list).
Proof.
  intros Nc D. unfold cacheLookup. rewrite Nc, D. reflexivity.
Qed.

(** The handler once the request is a GET, signed as required, with
    valid parameters: what remains is the lookup and the miss path. *)
Lemma handleRequest_validated (req : Request) (config : TransformConfig) :
  method req = "GET" ->
  checkSignature (searchParams req) (IMAGE_CDN_SIGNING_SECRET env) = Ok tt ->
  parseQueryParams (searchParams req) (limits env) = Ok config ->
  forall lookup,
  cacheLookup env config (buildCacheKey config)
    [console_log "Processing request:";
     console_log ("Cache key: " ++ buildCacheKey config)] = lookup ->
  serve env req
  = match lookup with
    | (Return r, log) => (r, log)
    | (Thrown m, log) =>
        (ErrorResponses.internalError
           (orString (Some m) "An unexpected error occurred"),
         (log ++ [console_error "Unhandled error:"])%list)
    | (Normal _, log) =>
        let log1 :=
          (log ++ [console_log ("Downloading original image from bucket: "
                                ++ bucket config)])%list in
        match download (bucket config) (path config) with
        | Throw m =>
            (ErrorResponses.internalError
               (orString (Some m) "An unexpected error occurred"),
             (log1 ++ [console_error "Unhandled error:"])%list)
        | Ok (mkDownload (Some originBytes) None) =>
            let log2 :=
              ((log1 ++ [console_log "Downloaded"])
               ++ [console_log "Transforming image..."])%list in
            match transformImage (num := PrimFloat.float) originBytes config
                    (inferFormatFromPath (path config)) with
            | Throw m =>
                (ErrorResponses.internalError
                   (orString (Some m) "An unexpected error occurred"),
                 (log2 ++ [console_error "Unhandled error:"])%list)
            | Ok (transformedData, outputFormat) =>
                let log3 :=
                  (log2 ++ [console_log "Transformation complete"])%list in
                (imageResponse transformedData outputFormat noOptions,
                 (snd (cacheWrite env (buildCacheKey config) transformedData
                         outputFormat log3)
                  ++ [console_log "Request completed (processed)"])%list)
            end
        | Ok _ =>
            (ErrorResponses.notFound (bucket config ++ "/" ++ path config),
             (log1 ++ [console_error "Failed to download original image:"])%list)
        end
    end.
Proof.
  intros M Sg Pq lookup Lk.
  unfold serve, handleRequest. rewrite M, Sg, Pq, String.eqb_refl.
  cbv beta iota zeta delta [tryCatch andThen await logLine logError pure
                            returnWith negb].
  cbn [Datatypes.app]. rewrite Lk. destruct lookup as [[[]|r|m] log]; try reflexivity.
  destruct (download (bucket config) (path config))
    as [[[originBytes|] [e|]]|m]; try reflexivity.
  cbv beta iota delta [error data].
  destruct (transformImage originBytes config
              (inferFormatFromPath (path config)))
    as [[transformedData outputFormat]|m]; try reflexivity.
  unfold cacheWrite.
  cbv beta iota zeta delta [tryCatch andThen await logLine logError].
  destruct (upload _ _ _ _) as [[e|]|e]; reflexivity.
Qed.
End HandlerPaths.


(** X18.  On a cache hit the cached bytes are the response, served with
    the format of the configuration, and the handler stops there: the
    origin is not read, nothing is transformed or stored, whatever the
    origin bucket and the codec would give. *)
Theorem cache_hit_serves_cached `{WebPlatform} `{Storage} {Image : Type}
    `{Codec Image} (env : Environment) (req : Request)
    (config : TransformConfig) (cached : list byte) :
  method req = "GET" ->
  checkSignature (searchParams req) (IMAGE_CDN_SIGNING_SECRET env) = Ok tt ->
  parseQueryParams (searchParams req) (limits env) = Ok config ->
  noCache config = false ->
  download (CACHE_BUCKET env) (buildCacheKey config)
  = Ok (mkDownload (Some cached) None) ->
  serve env req
  = (imageResponse cached
       (orFormat (format config) (inferFormatFromPath (path config)))
       noOptions,
     [console_log "Processing request:";
      console_log ("Cache key: " ++ buildCacheKey config);
      console_log "Cache HIT - returning cached image";
      console_log "Request completed (cached)"]).
Proof.
  intros M Sg Pq Nc D.
  rewrite (handleRequest_validated env req config M Sg Pq _
             (cacheLookup_hit env config _ cached Nc D)).
  reflexivity.
Qed.

Lemma cache_hit_serves_cached_witness :
  fst (serve
         (H0 := {| download := fun bucket _ =>
                     if String.eqb bucket "images-cache"
                     then Ok (mkDownload (Some [x07]) None)
                     else Throw "origin unreachable";
                   upload := fun _ _ _ _ => Throw "read only" |})
         (H := fakePlatform) (H1 := fakeCodec) testEnvironment testRequest)
  = imageResponse [x07] jpeg noOptions.
Proof.
  match goal with
  | |- fst (serve (H0 := ?s) _ _) = _ =>
      rewrite (cache_hit_serves_cached (H := fakePlatform) (H0 := s)
                 (H1 := fakeCodec) testEnvironment testRequest
                 (mkConfig "images" "test.jpg" (Some 400) None cover None 80
                           None center false)
                 [x07] eq_refl eq_refl eq_refl eq_refl eq_refl)
  end.
  reflexivity.
Defined.

(** X19.  On the miss path an origin download that resolves with an
    error, or without data, is answered 404 naming bucket and path; an
    origin download that rejects is answered 500 with the message of the
    rejection.  With [no_cache=1] this holds even when the cache holds
    the derivative. *)
Theorem origin_failure_responses `{WebPlatform} `{Storage} {Image : Type}
    `{Codec Image} (env : Environment) (req : Request)
    (config : TransformConfig) :
  method req = "GET" ->
  checkSignature (searchParams req) (IMAGE_CDN_SIGNING_SECRET env) = Ok tt ->
  parseQueryParams (searchParams req) (limits env) = Ok config ->
  cacheMiss env config ->
  (forall r, download (bucket config) (path config) = Ok r ->
             error r <> None \/ data r = None ->
             fst (serve env req)
             = ErrorResponses.notFound (bucket config ++ "/" ++ path config))
  /\ (forall m, download (bucket config) (path config) = Throw m ->
                m <> "" ->
                fst (serve env req) = ErrorResponses.internalError m).
Proof.
  intros M Sg Pq Miss.
  rewrite (handleRequest_validated env req config M Sg Pq _
             (cacheLookup_miss env config _ Miss)).
  cbv zeta. split.
  - intros r D B. rewrite D.
    destruct r as [[d|] [e|]]; cbn [error data] in B; try reflexivity.
    destruct B; congruence.
  - intros m D Nm. rewrite D. destruct m; [congruence | reflexivity].
Qed.

Lemma origin_failure_responses_witness :
  fst (serve (H := fakePlatform) (H0 := failingCacheStorage)
             (H1 := fakeCodec) testEnvironment
             (mkRequest "GET" [("path", "missing.jpg")]))
  = ErrorResponses.notFound "images/missing.jpg".
Proof.
  destruct (origin_failure_responses (H := fakePlatform)
              (H0 := failingCacheStorage) (H1 := fakeCodec) testEnvironment
              (mkRequest "GET" [("path", "missing.jpg")])
              (mkConfig "images" "missing.jpg" None None cover None 80 None
                        center false)
              eq_refl eq_refl eq_refl (or_intror eq_refl)) as [G _].
  apply (G (mkDownload None (Some "Object not found")));
    [reflexivity | left; discriminate].
Defined.

(** X20.  When the transform fails, the answer is 500 with the message
    of the failure (the fixed text of the handler when that message is
    empty), and the cache is not written: no upload is attempted. *)
Theorem transform_failure_is_500 `{WebPlatform} `{Storage} {Image : Type}
    `{Codec Image} (env : Environment) (req : Request)
    (config : TransformConfig) (originBytes : list byte) (m : string) :
  method req = "GET" ->
  checkSignature (searchParams req) (IMAGE_CDN_SIGNING_SECRET env) = Ok tt ->
  parseQueryParams (searchParams req) (limits env) = Ok config ->
  cacheMiss env config ->
  download (bucket config) (path config)
  = Ok (mkDownload (Some originBytes) None) ->
  transformImage (num := PrimFloat.float) originBytes config
                 (inferFormatFromPath (path config)) = Throw m ->
  fst (serve env req)
  = ErrorResponses.internalError
      (orString (Some m) "An unexpected error occurred")
  /\ (m <> "" -> fst (serve env req) = ErrorResponses.internalError m)
  /\ status (fst (serve env req)) = 500
  /\ ~ In (console_log "Uploading to cache bucket...") (snd (serve env req)).
Proof.
  intros M Sg Pq Miss D T.
  rewrite (handleRequest_validated env req config M Sg Pq _
             (cacheLookup_miss env config _ Miss)).
  cbv zeta. rewrite D, T. cbn [fst snd].
  split; [reflexivity|].
  split; [intros Nm; destruct m; [congruence | reflexivity]|].
  split; [reflexivity|].
  rewrite !in_app_iff. cbn [In].
  assert (Lk : ~ In (console_log "Uploading to cache bucket...")
                    (lookupLines env config)).
  { unfold lookupLines.
    destruct (noCache config);
        [|destruct (download (CACHE_BUCKET env) (buildCacheKey config))];
      simpl; intros K;
      repeat (destruct K as [K|K]; [discriminate K|]); exact K. }
  intros K.
  repeat match goal with
         | K : _ \/ _ |- _ => destruct K as [K|K]
         | K : False |- _ => destruct K
         | K : In _ (lookupLines _ _) |- _ => exact (Lk K)
         | K : _ = console_log _ |- _ => discriminate K
         end.
Qed.

Lemma transform_failure_is_500_witness :
  fst (serve (H := fakePlatform) (H0 := failingCacheStorage)
             (H1 := flatCodec) testEnvironment
             (mkRequest "GET" [("path", "test.jpg"); ("w", "400");
                               ("h", "400"); ("fit", "contain")]))
  = ErrorResponses.internalError "Image has to be at least 1 pixel high".
Proof.
  destruct (transform_failure_is_500 (H := fakePlatform)
              (H0 := failingCacheStorage) (H1 := flatCodec) testEnvironment
              (mkRequest "GET" [("path", "test.jpg"); ("w", "400");
                                ("h", "400"); ("fit", "contain")])
              (mkConfig "images" "test.jpg" (Some 400) (Some 400) contain
                        None 80 None center false)
              [x01; x02; x03] "Image has to be at least 1 pixel high"
              eq_refl eq_refl eq_refl (or_intror eq_refl) eq_refl)
    as (_ & G & _); [vm_compute; reflexivity|].
  apply G. discriminate.
Defined.

(** X21.  A request that is not a GET is answered 405 with nothing
    logged, whatever its parameters; a GET whose parameters fail
    validation is answered 400 with the validator's message. *)
Theorem early_rejections `{WebPlatform} `{Storage} {Image : Type}
    `{Codec Image} (env : Environment) (req : Request) :
  (method req <> "GET" ->
   serve env req = (ErrorResponses.methodNotAllowed, []))
  /\ (forall m,
        method req = "GET" ->
        checkSignature (searchParams req) (IMAGE_CDN_SIGNING_SECRET env)
        = Ok tt ->
        parseQueryParams (searchParams req) (limits env) = Throw m ->
        serve env req
        = (ErrorResponses.badRequest m,
           [console_error ("Parameter validation failed: " ++ m)])).
Proof.
  split.
  - intros N. unfold serve, handleRequest.
    apply String.eqb_neq in N. rewrite N. reflexivity.
  - intros m M Sg Pq. unfold serve, handleRequest.
    rewrite M, Sg, Pq, String.eqb_refl. reflexivity.
Qed.

Lemma early_rejections_witness :
  serve (H := fakePlatform) (H0 := failingCacheStorage) (H1 := fakeCodec)
        testEnvironment (mkRequest "GET" [("path", "a.jpg"); ("w", "0")])
  = (ErrorResponses.badRequest "Number out of range: 0 (min: 1, max: 2000)",
     [console_error
        "Parameter validation failed: Number out of range: 0 (min: 1, max: 2000)"]).
Proof.
  destruct (early_rejections (H := fakePlatform) (H0 := failingCacheStorage)
              (H1 := fakeCodec) testEnvironment
              (mkRequest "GET" [("path", "a.jpg"); ("w", "0")])) as [_ G].
  apply (G "Number out of range: 0 (min: 1, max: 2000)"); reflexivity.
Defined.

(** X22.  The formats agree along the pipeline: when the transform
    succeeds, the format it returns is the one read back from the cache
    key, the Content-Type of the upload is its MIME type, and a later
    hit is served with the same headers as this response. *)
Theorem formats_agree {Image : Type} `{Codec Image}
    (config : TransformConfig) (originBytes bytes cached : list byte)
    (f : ImageFormat) :
  transformImage (num := PrimFloat.float) originBytes config
                 (inferFormatFromPath (path config)) = Ok (bytes, f) ->
  inferFormatFromPath (buildCacheKey config) = f
  /\ "image/" ++ ImageFormat_toString f = getMimeType f
  /\ headers (imageResponse bytes f noOptions)
     = headers (imageResponse cached
                  (orFormat (format config)
                            (inferFormatFromPath (path config)))
                  noOptions).
Proof.
  intros T. destruct (transformImage_returns _ _ _ _ _ T) as [-> _].
  split; [|split; [|reflexivity]].
  - unfold buildCacheKey.
    destruct (getExtension_noDot
                (orFormat (format config) (inferFormatFromPath (path config))))
      as (D & _ & F).
    rewrite inferFormatFromPath_extension by exact D. exact F.
  - destruct (orFormat _ _); reflexivity.
Qed.

Lemma formats_agree_witness :
  inferFormatFromPath
    (buildCacheKey
       (mkConfig "images" "a.jpg" (Some 400) None cover (Some png) 80 None
                 center false)) = png.
Proof.
  apply (formats_agree (H := fakeCodec)
           (mkConfig "images" "a.jpg" (Some 400) None cover (Some png) 80
                     None center false)
           [x01] [x50; x4e] [] png).
  reflexivity.
Defined.

(** X23.  Whatever the request, the storage and the codec do, the
    status answered is one of 200, 400, 403, 404, 405 and 500, and the
    body is image bytes exactly when the status is 200; an error body
    repeats the status. *)
Theorem status_codes_and_bodies `{WebPlatform} `{Storage} {Image : Type}
    `{Codec Image} (env : Environment) (req : Request) :
  let response := fst (serve env req) in
  In (status response) statusCodes
  /\ (status response = 200 <-> isImageBody (body response) = true)
  /\ (forall e s d, body response = ErrorBody e s d -> s = status response).
Proof.
  assert (Img : forall bytes f,
             let r := imageResponse bytes f noOptions in
             In (status r) statusCodes
             /\ (status r = 200 <-> isImageBody (body r) = true)
             /\ (forall e s d, body r = ErrorBody e s d -> s = status r)).
  { intros bytes f. cbn. repeat split; auto; discriminate. }
  assert (Err : forall m s, In s [400; 403; 404; 405; 500] ->
             let r := errorResponse m s None in
             In (status r) statusCodes
             /\ (status r = 200 <-> isImageBody (body r) = true)
             /\ (forall e s' d, body r = ErrorBody e s' d -> s' = status r)).
  { intros m s Hs. cbn [errorResponse status body isImageBody].
    split; [cbn in *; tauto|].
    split; [split; [intros ->; cbn in Hs; lia | discriminate]|].
    intros e s' d E. inversion E. reflexivity. }
  cbv zeta.
  destruct (String.eqb_spec (method req) "GET") as [M|M].
  2:{ unfold serve, handleRequest.
      apply String.eqb_neq in M. rewrite M.
      apply (Err _ 405). cbn; tauto. }
  destruct (checkSignature (searchParams req) (IMAGE_CDN_SIGNING_SECRET env))
    as [[]|m] eqn:Sg.
  2:{ unfold serve, handleRequest. rewrite M, Sg, String.eqb_refl.
      apply (Err _ 403). cbn; tauto. }
  destruct (parseQueryParams (searchParams req) (limits env))
    as [config|m] eqn:Pq.
  2:{ unfold serve, handleRequest. rewrite M, Sg, Pq, String.eqb_refl.
      apply (Err _ 400). cbn; tauto. }
  rewrite (handleRequest_validated env req config M Sg Pq _ eq_refl).
  destruct (cacheLookup env config (buildCacheKey config) _)
    as [[[]|r|m] log] eqn:Lk; cbv zeta; cbn [fst].
  - destruct (download (bucket config) (path config))
      as [[[originBytes|] [e|]]|m]; cbn [fst];
      try (apply (Err _ 404); cbn; tauto);
      try (apply (Err _ 500); cbn; tauto).
    destruct (transformImage originBytes config _) as [[bytes f]|m];
      cbn [fst]; [apply Img | apply (Err _ 500); cbn; tauto].
  - (* the lookup returned: a hit *)
    unfold cacheLookup in Lk.
    destruct (noCache config); cbn [negb] in Lk; [discriminate Lk|].
    unfold tryCatch, andThen, await, logLine, pure, returnWith in Lk.
    destruct (download (CACHE_BUCKET env) (buildCacheKey config))
      as [[[d|] [e|]]|m']; cbn [error data] in Lk; inversion Lk.
    apply Img.
  - apply (Err _ 500). cbn; tauto.
Qed.
